(** * MakeTransformations: the transformation-synthesis pass of quicktype

    A shallow embedding of [src/quicktype-core/MakeTransformations.ts].
    The pass rewrites a type graph: every type the target language cannot
    represent is replaced by a carrier type that has a [Transformation]
    attached to it as a type attribute.

    Strings of the program (type kinds, enum cases, attribute names) are
    Rocq strings; a character stands for one code unit.  The rewrite
    builder is threaded explicitly through a state-and-failure monad.

    The first part of the file holds the definitions: the program, the
    environments and inputs it is run on, and the vocabulary of the
    properties.  The second part holds the properties. *)

From Stdlib Require Import String Ascii Sorted.
From stdpp Require Import base list strings sorting.

Local Open Scope string_scope.
Set Warnings "-register-all".

(** * Part I: definitions *)

(** ** Type references, kinds and the transformer IR *)

(** A [TypeRef] is a handle into the type graph under construction. *)
Abbreviation TypeRef := nat (only parsing).

(** At run time a [TypeKind] is a string: ["any"], ["null"], ["integer"],
    ["string"], ["integer-string"], ["array"], ["class"], ["enum"], ... *)
Abbreviation TypeKind := string (only parsing).

(** The transformer classes of [Transformers.ts] that this pass
    instantiates, with the constructor arguments in the order of the
    [new] expressions of the pass (the leading [graph] argument, which
    is the same for every node, is left out).  An absent consumer
    ([undefined]) is [None].  [StringifyTransformer] is the node that a
    [ParseStringTransformer] reverses to; the pass itself builds none. *)
Inductive Transformer : Type :=
| DecodingTransformer (sourceTypeRef : TypeRef) (consumer : option Transformer)
| ParseStringTransformer (sourceTypeRef : TypeRef) (consumer : option Transformer)
| StringifyTransformer (sourceTypeRef : TypeRef) (consumer : option Transformer)
| StringMatchTransformer (sourceTypeRef : TypeRef) (transformer : Transformer)
    (stringCase : string)
| StringProducerTransformer (sourceTypeRef : TypeRef) (consumer : option Transformer)
    (result : string)
| ChoiceTransformer (sourceTypeRef : TypeRef) (transformers : list Transformer)
| UnionInstantiationTransformer (sourceTypeRef : TypeRef)
| DecodingChoiceTransformer (sourceTypeRef : TypeRef)
    (nullTransformer integerTransformer doubleTransformer boolTransformer
     stringTransformer arrayTransformer objectTransformer : option Transformer)
| ArrayDecodingTransformer (sourceTypeRef : TypeRef) (consumer : option Transformer)
    (itemTargetTypeRef : TypeRef) (itemTransformer : Transformer).

(** A [Transformation] pairs the target type with the forward transformer. *)
Record Transformation : Type := mkTransformation {
  targetTypeRef : TypeRef;
  transformer : Transformer
}.

(** ** Type attributes *)

(** The value stored under one attribute kind: the transformation, or
    some other attribute whose content this pass never inspects. *)
Inductive TypeAttributeValue : Type :=
| TransformationAttribute (transformation : Transformation)
| OtherAttribute (payload : string).

(** Attributes are a map from attribute kind (by name) to value. *)
Definition TypeAttributes := list (string * TypeAttributeValue).

Definition emptyTypeAttributes : TypeAttributes := [].

Definition transformationTypeAttributeKind : string := "transformation".

(** [transformationTypeAttributeKind.makeAttributes(transformation)]. *)
Definition makeAttributes (transformation : Transformation) : TypeAttributes :=
  [(transformationTypeAttributeKind, TransformationAttribute transformation)].

(** ** The input types *)

Inductive ObjectTypeKind : Type := KObject | KMap | KClass.

Definition objectKindName (k : ObjectTypeKind) : TypeKind :=
  match k with KObject => "object" | KMap => "map" | KClass => "class" end.

(** The old type handed to a replacement strategy, as far as the
    strategies read it: its class, kind and attributes, the cases of an
    enum, the item type of an array and the members of a union (in the
    iteration order of the member set). *)
Inductive Type_ : Type :=
| PrimitiveType (kind : TypeKind) (attributes : TypeAttributes)
| ArrayType (attributes : TypeAttributes) (items : Type_)
| EnumType (attributes : TypeAttributes) (cases : list string)
| UnionType (attributes : TypeAttributes) (members : list Type_)
| ObjectType (kind : ObjectTypeKind) (attributes : TypeAttributes)
| IntersectionType (attributes : TypeAttributes) (members : list Type_).

Definition kind (t : Type_) : TypeKind :=
  match t with
  | PrimitiveType k _ => k
  | ArrayType _ _ => "array"
  | EnumType _ _ => "enum"
  | UnionType _ _ => "union"
  | ObjectType k _ => objectKindName k
  | IntersectionType _ _ => "intersection"
  end.

Definition getAttributes (t : Type_) : TypeAttributes :=
  match t with
  | PrimitiveType _ a | ArrayType a _ | EnumType a _ | UnionType a _
  | ObjectType _ a | IntersectionType a _ => a
  end.

(** ** Decidable equality of the IR and of the types *)

Definition Transformer_eq_dec : forall x y : Transformer, {x = y} + {x <> y}.
Proof.
  fix IH 1.
  assert (IHo : forall x y : option Transformer, {x = y} + {x <> y})
    by (decide equality).
  assert (IHl : forall x y : list Transformer, {x = y} + {x <> y})
    by (decide equality).
  decide equality; solve [apply Nat.eq_dec | apply string_dec].
Defined.

#[global] Instance Transformer_eq : EqDecision Transformer := Transformer_eq_dec.

#[global] Instance Transformation_eq : EqDecision Transformation.
Proof. solve_decision. Defined.

#[global] Instance TypeAttributeValue_eq : EqDecision TypeAttributeValue.
Proof. solve_decision. Defined.

Definition Type_eq_dec : forall x y : Type_, {x = y} + {x <> y}.
Proof.
  fix IH 1.
  assert (IHl : forall x y : list Type_, {x = y} + {x <> y})
    by (decide equality).
  decide equality;
    solve [apply string_dec | apply (_ : EqDecision TypeAttributes)
          | apply (_ : EqDecision (list string)) | decide equality].
Defined.

#[global] Instance Type_eq : EqDecision Type_ := Type_eq_dec.

(** ** Failure and builder state *)

(** Modelled from the spec: [panic], [assert] and [defined] of
    [support/Support.ts] are not in the source tree.  An invariant
    violation terminates the pass with a descriptive internal error;
    [Panic] carries the description. *)
Inductive Result (A : Type) : Type :=
| Ok (value : A)
| Panic (message : string).
Arguments Ok {A} value.
Arguments Panic {A} message.

(** [StringTypes]: the restriction a string type carries.  The pass only
    ever passes [StringTypes.unrestricted]. *)
Inductive StringTypes : Type :=
| unrestricted
| restricted (cases : list string).

(** Modelled from the spec: the rewrite context of [GraphRewriting.ts]
    is not in the source tree.  The new graph is an arena: a type is
    addressed by a handle that is allocated before its body is filled
    in.  A slot is [None] while its handle is allocated and the body is
    still missing (a forwarding handle). *)
Inductive TypeNode : Type :=
| PrimitiveNode (kind : TypeKind)
| StringNode (stringTypes : StringTypes)
| ArrayNode (items : TypeRef)
| EnumNode (cases : list string)
| UnionNode (members : list TypeRef).

Record TypeEntry : Type := mkEntry {
  node : TypeNode;
  entryAttributes : TypeAttributes
}.

Record Builder : Type := mkBuilder {
  types : list (option TypeEntry);
  lostTypeAttributes : bool
}.

#[global] Instance StringTypes_eq : EqDecision StringTypes.
Proof. solve_decision. Defined.
#[global] Instance TypeNode_eq : EqDecision TypeNode.
Proof. solve_decision. Defined.
#[global] Instance TypeEntry_eq : EqDecision TypeEntry.
Proof. solve_decision. Defined.

(** The type a handle resolves to, once its body is there. *)
Definition lookupType (b : Builder) (r : TypeRef) : option TypeEntry :=
  match types b !! r with
  | Some (Some e) => Some e
  | _ => None
  end.

(** Computations on the builder that may abort the pass. *)
Definition M (A : Type) : Type := Builder -> Result (A * Builder).

Definition ret {A} (a : A) : M A := fun b => Ok (a, b).

Definition bind {A B} (m : M A) (k : A -> M B) : M B :=
  fun b => match m b with
           | Ok (a, b') => k a b'
           | Panic msg => Panic msg
           end.

Notation "'let*' x ':=' m 'in' k" := (bind m (fun x => k))
  (at level 10, x name, m at level 100, k at level 200, only parsing).
Notation "'let*' ' pat ':=' m 'in' k" :=
  (bind m (fun x => match x with pat => k end))
  (at level 10, pat pattern, m at level 100, k at level 200, only parsing).
Notation "'do*' m 'in' k" := (bind m (fun _ => k))
  (at level 10, m at level 100, k at level 200, only parsing).

Definition panic {A} (message : string) : M A := fun _ => Panic message.

Definition assert (condition : bool) (message : string) : M unit :=
  if condition then ret tt else panic message.

Definition defined {A} (x : option A) : M A :=
  match x with
  | Some v => ret v
  | None => panic "Defined value expected, but got undefined"
  end.

(** Modelled from the spec: the canonicalizing constructors return a
    handle deduplicated by structural identity within the new graph;
    given a forwarding handle, the type is put at that handle, which is
    the handle returned. *)
Definition getOrAddType (entry : TypeEntry) (forwardingRef : option TypeRef)
  : M TypeRef :=
  fun b =>
    match forwardingRef with
    | Some r =>
        Ok (r, mkBuilder (<[r := Some entry]> (types b)) (lostTypeAttributes b))
    | None =>
        match list_find (fun e => e = Some entry) (types b) with
        | Some (i, _) => Ok (i, b)
        | None =>
            Ok (length (types b),
                mkBuilder (types b ++ [Some entry]) (lostTypeAttributes b))
        end
    end.

(** [maybeAttributes] defaults to the empty attributes. *)
Definition defaultTypeAttributes (a : option TypeAttributes) : TypeAttributes :=
  match a with Some a => a | None => emptyTypeAttributes end.

Definition builder_getPrimitiveType (kind : TypeKind)
    (maybeAttributes : option TypeAttributes) (forwardingRef : option TypeRef)
  : M TypeRef :=
  getOrAddType (mkEntry (PrimitiveNode kind) (defaultTypeAttributes maybeAttributes))
    forwardingRef.

Definition builder_getStringType (attributes : TypeAttributes)
    (stringTypes : StringTypes) (forwardingRef : option TypeRef) : M TypeRef :=
  getOrAddType (mkEntry (StringNode stringTypes) attributes) forwardingRef.

Definition builder_getArrayType (attributes : TypeAttributes) (items : TypeRef)
    (forwardingRef : option TypeRef) : M TypeRef :=
  getOrAddType (mkEntry (ArrayNode items) attributes) forwardingRef.

Definition builder_getEnumType (attributes : TypeAttributes) (cases : list string)
    (forwardingRef : option TypeRef) : M TypeRef :=
  getOrAddType (mkEntry (EnumNode cases) attributes) forwardingRef.

Definition builder_getUnionType (attributes : TypeAttributes)
    (members : list TypeRef) (forwardingRef : option TypeRef) : M TypeRef :=
  getOrAddType (mkEntry (UnionNode members) attributes) forwardingRef.

Definition builder_setLostTypeAttributes : M unit :=
  fun b => Ok (tt, mkBuilder (types b) true).

(** The collaborators whose code is not in the source tree and whose
    behaviour the strategies only rely on through their interface: the
    two kind tables of [Type.ts], attribute merging of
    [TypeAttributes.ts], and the recursive carry-over operations of the
    rewrite engine. *)
Class Collaborators : Type := {
  isPrimitiveStringTypeKind : TypeKind -> bool;
  targetTypeKindForTransformedStringTypeKind : TypeKind -> option TypeKind;
  combineTypeAttributes : string -> TypeAttributes -> TypeAttributes -> TypeAttributes;
  builder_reconstituteType : Type_ -> M TypeRef;
  builder_reconstituteTypeAttributes : TypeAttributes -> M TypeAttributes
}.

(** ** Collections *)

(** A JavaScript [Map] from kind to handle, in insertion order:
    [set] overwrites the value of a key that is present and appends a
    new key. *)
Definition KindMap := list (TypeKind * TypeRef).

Fixpoint Map_set (m : KindMap) (k : TypeKind) (v : TypeRef) : KindMap :=
  match m with
  | [] => [(k, v)]
  | (k', v') :: m' =>
      if String.eqb k' k then (k', v) :: m' else (k', v') :: Map_set m' k v
  end.

Fixpoint Map_get (m : KindMap) (k : TypeKind) : option TypeRef :=
  match m with
  | [] => None
  | (k', v') :: m' => if String.eqb k' k then Some v' else Map_get m' k
  end.

Definition Map_values (m : KindMap) : list TypeRef := map snd m.

(** A JavaScript [Set] of handles, in insertion order: [new Set(xs)]
    keeps the first occurrence of every element. *)
Definition Set_add (s : list TypeRef) (x : TypeRef) : list TypeRef :=
  if decide (x ∈ s) then s else s ++ [x].

Definition Set_from (xs : list TypeRef) : list TypeRef :=
  fold_left Set_add xs [].

Definition iterableFirst {A} (xs : list A) : option A := head xs.

(** [Array.prototype.sort] without a comparator orders strings by their
    code units; on a set of strings, which has no repetitions, every
    sorting algorithm gives the same array. *)
Fixpoint insertSorted (c : string) (l : list string) : list string :=
  match l with
  | [] => [c]
  | x :: l' => if String.leb c x then c :: l else x :: insertSorted c l'
  end.

Definition Array_sort (l : list string) : list string :=
  foldr insertSorted [] l.

(** Modelled from the spec: [UnionType.findMember] and
    [UnionType.stringTypeMembers] of [Type.ts] are not in the source
    tree.  [findMember] gives the member of a kind, if the union has
    one; the string-like members are the primitive string kinds and the
    enumerations. *)
Definition findMember (members : list Type_) (k : TypeKind) : option Type_ :=
  find (fun t => String.eqb (kind t) k) members.

(** ** The pass *)

Section Pass.

Context `{Collaborators}.

(** [union.stringTypeMembers], in the iteration order of the members. *)
Definition stringTypeMembers (members : list Type_) : list Type_ :=
  filter (fun t => isPrimitiveStringTypeKind (kind t) || String.eqb (kind t) "enum" = true)
    members.

(** Debug printing has no effect on the result and is not modelled. *)
Definition transformationAttributes (reconstitutedTargetType : TypeRef)
    (transformer : Transformer) (debugPrintTransformations : bool)
  : TypeAttributes :=
  let transformation := mkTransformation reconstitutedTargetType transformer in
  makeAttributes transformation.

(** [makeEnumTransformer(graph, enumType, stringType, continuation)];
    [cases] is [enumType.cases]. *)
Definition makeEnumTransformer (cases : list string) (stringType : TypeRef)
    (continuation : option Transformer) : Transformer :=
  let sortedCases := Array_sort cases in
  let caseTransformers :=
    map (fun c =>
           StringMatchTransformer stringType
             (StringProducerTransformer stringType continuation c) c)
        sortedCases in
  ChoiceTransformer stringType caseTransformers.

(** *** [replaceUnion] and its local functions

    The local functions of [replaceUnion] close over the union, over
    [reconstitutedMembersByKind] and [haveUnion], and over two mutable
    variables, [additionalAttributes] and [maybeStringType].  Here the
    captured values are arguments ([members] is [union.members]), and
    the mutable variables are passed in and returned. *)
Definition reconstituteMember (members : list Type_)
    (additionalAttributes : TypeAttributes) (t : Type_)
  : M (TypeRef * TypeAttributes) :=
  if isPrimitiveStringTypeKind (kind t) then
    match targetTypeKindForTransformedStringTypeKind (kind t) with
    | Some targetTypeKind =>
        let targetTypeMember := findMember members targetTypeKind in
        let additionalAttributes :=
          combineTypeAttributes "union" additionalAttributes (getAttributes t) in
        match targetTypeMember with
        | Some m =>
            let* r := builder_reconstituteType m in ret (r, additionalAttributes)
        | None =>
            let* r := builder_getPrimitiveType targetTypeKind None None in
            ret (r, additionalAttributes)
        end
    | None =>
        let* r := builder_reconstituteType t in ret (r, additionalAttributes)
    end
  else
    let* r := builder_reconstituteType t in ret (r, additionalAttributes).

(** [mapMapEntries(union.members.entries(), m => [m.kind, reconstituteMember(m)])],
    the loop over the members that fills a fresh [Map]. *)
Fixpoint mapMapEntries (members rest : list Type_) (result : KindMap)
    (additionalAttributes : TypeAttributes) : M (KindMap * TypeAttributes) :=
  match rest with
  | [] => ret (result, additionalAttributes)
  | m :: rest' =>
      let* '(r, additionalAttributes') :=
        reconstituteMember members additionalAttributes m in
      mapMapEntries members rest' (Map_set result (kind m) r) additionalAttributes'
  end.

Definition memberForKind (reconstitutedMembersByKind : KindMap) (k : TypeKind)
  : M TypeRef :=
  defined (Map_get reconstitutedMembersByKind k).

Definition consumer (haveUnion : bool) (memberTypeRef : TypeRef)
  : option Transformer :=
  if negb haveUnion then None
  else Some (UnionInstantiationTransformer memberTypeRef).

Definition transformerForKind (members : list Type_)
    (reconstitutedMembersByKind : KindMap) (haveUnion : bool) (k : TypeKind)
  : M (option Transformer) :=
  match findMember members k with
  | None => ret None
  | Some _ =>
      let* memberTypeRef := memberForKind reconstitutedMembersByKind k in
      ret (Some (DecodingTransformer memberTypeRef (consumer haveUnion memberTypeRef)))
  end.

(** The local [getStringType], which asks the builder for the plain
    string type on the first call and remembers it. *)
Definition getStringType (maybeStringType : option TypeRef)
  : M (TypeRef * option TypeRef) :=
  match maybeStringType with
  | None =>
      let* r := builder_getStringType emptyTypeAttributes unrestricted None in
      ret (r, Some r)
  | Some r => ret (r, Some r)
  end.

Definition transformerForStringType (reconstitutedMembersByKind : KindMap)
    (haveUnion : bool) (maybeStringType : option TypeRef) (t : Type_)
  : M (option Transformer * option TypeRef) :=
  let* memberRef := memberForKind reconstitutedMembersByKind (kind t) in
  if String.eqb (kind t) "string" then
    ret (consumer haveUnion memberRef, maybeStringType)
  else
    match t with
    | EnumType _ cases =>
        let* '(stringType, maybeStringType') := getStringType maybeStringType in
        ret (Some (makeEnumTransformer cases stringType (consumer haveUnion memberRef)),
             maybeStringType')
    | _ =>
        let* '(stringType, maybeStringType') := getStringType maybeStringType in
        ret (Some (ParseStringTransformer stringType (consumer haveUnion memberRef)),
             maybeStringType')
    end.

(** [Array.from(stringTypes).map(t => defined(transformerForStringType(t)))]. *)
Fixpoint transformersForStringTypes (reconstitutedMembersByKind : KindMap)
    (haveUnion : bool) (maybeStringType : option TypeRef) (ts : list Type_)
  : M (list Transformer * option TypeRef) :=
  match ts with
  | [] => ret ([], maybeStringType)
  | t :: ts' =>
      let* '(o, maybeStringType') :=
        transformerForStringType reconstitutedMembersByKind haveUnion maybeStringType t in
      let* x := defined o in
      let* '(xs, maybeStringType'') :=
        transformersForStringTypes reconstitutedMembersByKind haveUnion
          maybeStringType' ts' in
      ret (x :: xs, maybeStringType'')
  end.

(** The three-way conditional that assigns [transformerForString].  In
    its last branch the arguments of the two [new] expressions are
    evaluated from left to right: [getStringType()] twice, then the
    alternatives. *)
Definition transformerForString (members : list Type_)
    (reconstitutedMembersByKind : KindMap) (haveUnion : bool)
  : M (option Transformer) :=
  let stringTypes := stringTypeMembers members in
  if (length stringTypes =? 0)%nat then ret None
  else if (length stringTypes =? 1)%nat then
    let* t := defined (iterableFirst stringTypes) in
    transformerForKind members reconstitutedMembersByKind haveUnion (kind t)
  else
    let* '(stringType1, maybeStringType) := getStringType None in
    let* '(stringType2, maybeStringType) := getStringType maybeStringType in
    let* '(alternatives, _) :=
      transformersForStringTypes reconstitutedMembersByKind haveUnion
        maybeStringType stringTypes in
    ret (Some (DecodingTransformer stringType1
                 (Some (ChoiceTransformer stringType2 alternatives)))).

Definition isSome {A} (o : option A) : bool :=
  match o with Some _ => true | None => false end.

(** [replaceUnion(union, builder, forwardingRef, debugPrintTransformations)];
    [attributes] is [union.getAttributes()] and [members] is
    [union.members]. *)
Definition replaceUnion (attributes : TypeAttributes) (members : list Type_)
    (forwardingRef : TypeRef) (debugPrintTransformations : bool) : M TypeRef :=
  do* assert (0 <? length members)%nat "We can't have empty unions" in
  let* '(reconstitutedMembersByKind, additionalAttributes) :=
    mapMapEntries members members [] emptyTypeAttributes in
  let reconstitutedMemberSet := Set_from (Map_values reconstitutedMembersByKind) in
  let haveUnion := (1 <? length reconstitutedMemberSet)%nat in
  do* (if negb haveUnion then builder_setLostTypeAttributes else ret tt) in
  let* reconstitutedTargetType :=
    (if haveUnion then builder_getUnionType attributes reconstitutedMemberSet None
     else defined (iterableFirst reconstitutedMemberSet)) in
  let tfk := transformerForKind members reconstitutedMembersByKind haveUnion in
  let* forString := transformerForString members reconstitutedMembersByKind haveUnion in
  let* transformerForClass := tfk "class" in
  let* transformerForMap := tfk "map" in
  do* assert (negb (isSome transformerForClass) || negb (isSome transformerForMap))
        "Can't have both class and map in a transformed union" in
  let transformerForObject :=
    if isSome transformerForClass then transformerForClass else transformerForMap in
  let* anyType := builder_getPrimitiveType "any" None None in
  let* forNull := tfk "null" in
  let* forInteger := tfk "integer" in
  let* forDouble := tfk "double" in
  let* forBool := tfk "bool" in
  let* forArray := tfk "array" in
  let transformer :=
    DecodingChoiceTransformer anyType forNull forInteger forDouble forBool
      forString forArray transformerForObject in
  let attributes' :=
    transformationAttributes reconstitutedTargetType transformer
      debugPrintTransformations in
  builder_getPrimitiveType "any"
    (Some (combineTypeAttributes "union" attributes' additionalAttributes))
    (Some forwardingRef).

(** *** The other three strategies

    [replaceArray(arrayType, ...)]; [attributes] is
    [arrayType.getAttributes()] and [items] is [arrayType.items]. *)
Definition replaceArray (attributes : TypeAttributes) (items : Type_)
    (forwardingRef : TypeRef) (debugPrintTransformations : bool) : M TypeRef :=
  let* anyType := builder_getPrimitiveType "any" None None in
  let* anyArrayType := builder_getArrayType emptyTypeAttributes anyType None in
  let* reconstitutedItems := builder_reconstituteType items in
  let transformer :=
    ArrayDecodingTransformer anyArrayType None reconstitutedItems
      (DecodingTransformer anyType None) in
  let* attributes' := builder_reconstituteTypeAttributes attributes in
  let* reconstitutedArray :=
    builder_getArrayType attributes' reconstitutedItems None in
  let attributes'' :=
    transformationAttributes reconstitutedArray transformer
      debugPrintTransformations in
  builder_getArrayType attributes'' anyType (Some forwardingRef).

(** [replaceEnum(enumType, ...)]; [attributes] is
    [enumType.getAttributes()] and [cases] is [enumType.cases]. *)
Definition replaceEnum (attributes : TypeAttributes) (cases : list string)
    (forwardingRef : TypeRef) (debugPrintTransformations : bool) : M TypeRef :=
  let* stringType := builder_getStringType emptyTypeAttributes unrestricted None in
  let transformer :=
    DecodingTransformer stringType
      (Some (makeEnumTransformer cases stringType None)) in
  let* reconstitutedEnum := builder_getEnumType attributes cases None in
  let attributes' :=
    transformationAttributes reconstitutedEnum transformer
      debugPrintTransformations in
  builder_getStringType attributes' unrestricted (Some forwardingRef).

(** [replaceIntegerString(t, ...)].  The cast [t as PrimitiveType] of
    the caller is unchecked, and only the attributes of [t] are read. *)
Definition replaceIntegerString (t : Type_) (forwardingRef : TypeRef)
    (debugPrintTransformations : bool) : M TypeRef :=
  let* stringType := builder_getStringType emptyTypeAttributes unrestricted None in
  let transformer :=
    DecodingTransformer stringType
      (Some (ParseStringTransformer stringType None)) in
  let* attributes' := builder_reconstituteTypeAttributes (getAttributes t) in
  let* target := builder_getPrimitiveType "integer" (Some attributes') None in
  let attributes'' :=
    transformationAttributes target transformer debugPrintTransformations in
  builder_getStringType attributes'' unrestricted (Some forwardingRef).

Record RunContext : Type := mkRunContext {
  debugPrintTransformations : bool;
  debugPrintReconstitution : bool
}.

(** *** The dispatcher of [makeTransformations]

    [instanceof] is a match on the constructor. *)
Definition replace (ctx : RunContext) (setOfOneUnion : list Type_)
    (forwardingRef : TypeRef) : M TypeRef :=
  let* t := defined (iterableFirst setOfOneUnion) in
  match t with
  | UnionType attributes members =>
      replaceUnion attributes members forwardingRef (debugPrintTransformations ctx)
  | ArrayType attributes items =>
      replaceArray attributes items forwardingRef (debugPrintReconstitution ctx)
  | EnumType attributes cases =>
      replaceEnum attributes cases forwardingRef (debugPrintTransformations ctx)
  | _ =>
      if isPrimitiveStringTypeKind (kind t) then
        replaceIntegerString t forwardingRef (debugPrintReconstitution ctx)
      else panic ("Cannot make transformation for type " ++ kind t)
  end.

(** The replacement groups of [makeTransformations]: every type that
    needs a transformer is a group of its own. *)
Definition groups (needsTransformerForType : Type_ -> bool)
    (allTypesUnordered : list Type_) : list (list Type_) :=
  map (fun t => [t]) (List.filter needsTransformerForType allTypesUnordered).

End Pass.

(** ** Environments and inputs *)

(** A plain instance of the collaborators, to run the pass on concrete
    inputs: the primitive string kinds are ["string"], ["date"],
    ["time"], ["date-time"] and ["integer-string"], of which
    ["integer-string"] has the target kind ["integer"]; attributes are
    merged by concatenation; a type is carried over by rebuilding it
    with the canonicalizing constructors. *)
Definition plain_isPrimitiveStringTypeKind (k : TypeKind) : bool :=
  bool_decide (k ∈ ["string"; "date"; "time"; "date-time"; "integer-string"]).

Definition plain_targetTypeKind (k : TypeKind) : option TypeKind :=
  if String.eqb k "integer-string" then Some "integer" else None.

Fixpoint plain_reconstituteType (t : Type_) : M TypeRef :=
  match t with
  | PrimitiveType k a =>
      if String.eqb k "string" then builder_getStringType a unrestricted None
      else builder_getPrimitiveType k (Some a) None
  | ArrayType a items =>
      let* i := plain_reconstituteType items in builder_getArrayType a i None
  | EnumType a cases => builder_getEnumType a cases None
  | _ => builder_getPrimitiveType (kind t) (Some (getAttributes t)) None
  end.

Definition plain : Collaborators := {|
  isPrimitiveStringTypeKind := plain_isPrimitiveStringTypeKind;
  targetTypeKindForTransformedStringTypeKind := plain_targetTypeKind;
  combineTypeAttributes := fun _ a b => (a ++ b)%list;
  builder_reconstituteType := plain_reconstituteType;
  builder_reconstituteTypeAttributes := fun a => ret a
|}.

(** A builder in which handle [0] is allocated as the forwarding handle
    of the replacement in progress. *)
Definition builder0 : Builder := mkBuilder [None] false.

(** An environment whose string type mapping maps every primitive
    string kind to the plain string type: a date or a time is carried
    over as a string. *)
Definition mapped_reconstituteType (t : Type_) : M TypeRef :=
  match t with
  | PrimitiveType k a =>
      if plain_isPrimitiveStringTypeKind k
      then builder_getStringType a unrestricted None
      else builder_getPrimitiveType k (Some a) None
  | _ => plain_reconstituteType t
  end.

Definition mapped : Collaborators := {|
  isPrimitiveStringTypeKind := plain_isPrimitiveStringTypeKind;
  targetTypeKindForTransformedStringTypeKind := plain_targetTypeKind;
  combineTypeAttributes := fun _ a b => (a ++ b)%list;
  builder_reconstituteType := mapped_reconstituteType;
  builder_reconstituteTypeAttributes := fun a => ret a
|}.




(** The result of a run that is known to succeed. *)
Definition outcome (x : Result (TypeRef * Builder)) : TypeRef * Builder :=
  match x with
  | Ok p => p
  | Panic _ => (0, builder0)
  end.

(** integer | integer-as-string, which collapses to the integer. *)
Definition collapsingUnion : list Type_ :=
  [PrimitiveType "integer" [];
   PrimitiveType "integer-string" [("description", OtherAttribute "a count")]].

(** null | integer-as-string. *)
Definition nullableCount : list Type_ :=
  [PrimitiveType "null" [];
   PrimitiveType "integer-string" [("description", OtherAttribute "a count")]].

(** string | enum {A, B}, the plain string first. *)
Definition stringOrEnum : list Type_ :=
  [PrimitiveType "string" []; EnumType [] ["A"; "B"]].

(** date | time. *)
Definition dateOrTime : list Type_ :=
  [PrimitiveType "date" []; PrimitiveType "time" []].

(** class | map. *)
Definition classOrMap : list Type_ :=
  [ObjectType KClass []; ObjectType KMap []].

Definition collapsedRun : TypeRef * Builder :=
  outcome (replaceUnion (H:=plain) [] collapsingUnion 0 false builder0).

Definition nullableCountRun : TypeRef * Builder :=
  outcome (replaceUnion (H:=plain) [] nullableCount 0 false builder0).

Definition stringOrEnumRun : TypeRef * Builder :=
  outcome (replaceUnion (H:=plain) [] stringOrEnum 0 false builder0).

(** ** The vocabulary of the properties *)

(** The new graph only grows: every handle keeps its slot. *)
Definition extends (b b' : Builder) : Prop := types b `prefix_of` types b'.

(** A step that only adds types satisfying [P] to the new graph, and
    leaves the flag alone. *)
Definition addsOnly (P : TypeEntry -> Prop) (b b' : Builder) : Prop :=
  extends b b' /\
  lostTypeAttributes b' = lostTypeAttributes b /\
  forall i e, lookupType b' i = Some e -> lookupType b i = Some e \/ P e.

Definition leb_string (a b : string) : Prop := String.leb a b = true.

(** The transformer of an enumeration: [Decode] of the string type into
    one [Choice] of a [StringMatch] continued by a [StringProduce] for
    every case of [sortedCases]. *)
Definition enumDecoder (stringType : TypeRef) (sortedCases : list string)
  : Transformer :=
  DecodingTransformer stringType
    (Some (ChoiceTransformer stringType
             (map (fun c =>
                     StringMatchTransformer stringType
                       (StringProducerTransformer stringType None c) c)
                  sortedCases))).

(** The transformation attached to the type at a handle. *)
Definition attachedTransformation (b : Builder) (r : TypeRef) : option Transformation :=
  match lookupType b r with
  | Some e =>
      match entryAttributes e with
      | (_, TransformationAttribute t) :: _ => Some t
      | _ => None
      end
  | None => None
  end.

Definition plainString : TypeEntry :=
  mkEntry (StringNode unrestricted) emptyTypeAttributes.

Definition anyEntry (attributes : TypeAttributes) : TypeEntry :=
  mkEntry (PrimitiveNode "any") attributes.

Definition isUnionNode (e : TypeEntry) : bool :=
  match node e with UnionNode _ => true | _ => false end.

(** The branch of the union decoder for the member of kind [k]. *)
Definition branchFor (members : list Type_) (byKind : KindMap) (haveUnion : bool)
    (k : TypeKind) : option Transformer :=
  match findMember members k, Map_get byKind k with
  | Some _, Some ref => Some (DecodingTransformer ref (consumer haveUnion ref))
  | _, _ => None
  end.

(** The alternative of the combined string branch for the string-like
    member [t]. *)
Definition stringAlternative (byKind : KindMap) (haveUnion : bool)
    (stringType : TypeRef) (t : Type_) : option Transformer :=
  match Map_get byKind (kind t) with
  | None => None
  | Some ref =>
      if String.eqb (kind t) "string" then consumer haveUnion ref
      else match t with
           | EnumType _ cases =>
               Some (makeEnumTransformer cases stringType (consumer haveUnion ref))
           | _ => Some (ParseStringTransformer stringType (consumer haveUnion ref))
           end
  end.

(** What a string-like member contributes to the combined string
    branch: a plain string its consumer, an enumeration the case
    matcher of [makeEnumTransformer], any other member a
    [ParseString]. *)
Inductive Alternative (byKind : KindMap) (haveUnion : bool) (stringType : TypeRef)
  : Type_ -> Transformer -> Prop :=
| Alternative_plain t ref :
    kind t = "string" ->
    Map_get byKind (kind t) = Some ref ->
    haveUnion = true ->
    Alternative byKind haveUnion stringType t (UnionInstantiationTransformer ref)
| Alternative_enum attributes cases ref :
    Map_get byKind "enum" = Some ref ->
    Alternative byKind haveUnion stringType (EnumType attributes cases)
      (makeEnumTransformer cases stringType (consumer haveUnion ref))
| Alternative_parse t ref :
    kind t <> "string" ->
    (forall attributes cases, t <> EnumType attributes cases) ->
    Map_get byKind (kind t) = Some ref ->
    Alternative byKind haveUnion stringType t
      (ParseStringTransformer stringType (consumer haveUnion ref)).

(** The decoder of the union, from its parts. *)
Definition unionDecoder (members : list Type_) (byKind : KindMap) (haveUnion : bool)
    (anyType : TypeRef) (forString : option Transformer) : Transformer :=
  let branch := branchFor members byKind haveUnion in
  DecodingChoiceTransformer anyType
    (branch "null") (branch "integer") (branch "double") (branch "bool")
    forString (branch "array")
    (if isSome (branch "class") then branch "class" else branch "map").

(** The map filled by the loop: the handle of each member under the
    kind of the member. *)
Definition recordMembers (result : KindMap) (ts : list Type_) (rs : list TypeRef)
  : KindMap :=
  fold_left (fun acc tr => Map_set acc (kind tr.1) tr.2) (zip ts rs) result.

(** The alternative of a plain-string member is a bare
    [UnionInstantiate]; a case matcher is a [Choice], and a parser a
    [ParseString]. *)
Definition isPlainStringAlternative (x : Transformer) : bool :=
  match x with
  | UnionInstantiationTransformer _ => true
  | _ => false
  end.

(** The plain-string alternative comes after every other alternative. *)
Definition plainStringLast (alternatives : list Transformer) : Prop :=
  forall i j x y,
    alternatives !! i = Some x -> alternatives !! j = Some y ->
    isPlainStringAlternative x = true -> isPlainStringAlternative y = false ->
    j < i.

(** Whether a [UnionInstantiate] occurs in a transformer. *)
Fixpoint hasUnionInstantiation (x : Transformer) : bool :=
  match x with
  | DecodingTransformer _ c
  | ParseStringTransformer _ c
  | StringifyTransformer _ c
  | StringProducerTransformer _ c _ =>
      match c with Some y => hasUnionInstantiation y | None => false end
  | StringMatchTransformer _ t _ => hasUnionInstantiation t
  | ChoiceTransformer _ ts => existsb hasUnionInstantiation ts
  | UnionInstantiationTransformer _ => true
  | DecodingChoiceTransformer _ c1 c2 c3 c4 c5 c6 c7 =>
      existsb
        (fun c => match c with Some y => hasUnionInstantiation y | None => false end)
        [c1; c2; c3; c4; c5; c6; c7]
  | ArrayDecodingTransformer _ c _ t =>
      match c with Some y => hasUnionInstantiation y | None => false end
      || hasUnionInstantiation t
  end.

Definition optionHasUnionInstantiation (c : option Transformer) : bool :=
  match c with Some y => hasUnionInstantiation y | None => false end.

(** A branch that decodes and passes the value on untagged. *)
Definition bareDecode (c : option Transformer) : Prop :=
  c = None \/ exists ref, c = Some (DecodingTransformer ref None).

(** A branch that decodes and tags the value with the member type. *)
Definition taggingDecode (c : option Transformer) : Prop :=
  c = None \/
  exists ref,
    c = Some (DecodingTransformer ref (Some (UnionInstantiationTransformer ref))).

Definition dispatchedKinds : list TypeKind :=
  ["null"; "integer"; "double"; "bool"; "array"; "class"; "map"].

Section Vocabulary.

Context `{Collaborators}.

(** The contract of the rewrite engine:
    what the strategies rely on when they ask the engine to carry a
    type or its attributes over: the call returns, and it only adds
    handles to the new graph (an allocated handle keeps its slot, and a
    forwarding handle of a replacement in progress is left unfilled). *)
Definition wellBehaved {A} (m : M A) : Prop :=
  forall b, exists a b', m b = Ok (a, b') /\ extends b b'.

Definition engineContract : Prop :=
  (forall t, wellBehaved (builder_reconstituteType t)) /\
  (forall a, wellBehaved (builder_reconstituteTypeAttributes a)).

(** The three cases of the string branch. *)
Inductive StringBranch (members : list Type_) (byKind : KindMap) (haveUnion : bool)
    (b : Builder) : option Transformer -> Prop :=
| StringBranch_absent :
    stringTypeMembers members = [] ->
    StringBranch members byKind haveUnion b None
| StringBranch_single t ref :
    stringTypeMembers members = [t] ->
    Map_get byKind (kind t) = Some ref ->
    StringBranch members byKind haveUnion b
      (Some (DecodingTransformer ref (consumer haveUnion ref)))
| StringBranch_combined stringType alternatives :
    (1 < length (stringTypeMembers members))%nat ->
    lookupType b stringType = Some plainString ->
    Forall2 (Alternative byKind haveUnion stringType)
      (stringTypeMembers members) alternatives ->
    StringBranch members byKind haveUnion b
      (Some (DecodingTransformer stringType
               (Some (ChoiceTransformer stringType alternatives)))).

(** The target kind a member is redirected to, if it is of a
    transformed-string kind with a target kind. *)
Definition redirected (t : Type_) : option TypeKind :=
  if isPrimitiveStringTypeKind (kind t)
  then targetTypeKindForTransformedStringTypeKind (kind t)
  else None.

(** How [reconstituteMember] obtains the handle [r] of the member [t],
    taking the builder from [b] to [b']. *)
Inductive MemberHandle (members : list Type_) (t : Type_) (b : Builder)
    (r : TypeRef) (b' : Builder) : Prop :=
| Member_reused k m :
    redirected t = Some k ->
    findMember members k = Some m ->
    builder_reconstituteType m b = Ok (r, b') ->
    MemberHandle members t b r b'
| Member_created k :
    redirected t = Some k ->
    findMember members k = None ->
    lookupType b' r = Some (mkEntry (PrimitiveNode k) emptyTypeAttributes) ->
    addsOnly (fun e => e = mkEntry (PrimitiveNode k) emptyTypeAttributes) b b' ->
    MemberHandle members t b r b'
| Member_unchanged :
    redirected t = None ->
    builder_reconstituteType t b = Ok (r, b') ->
    MemberHandle members t b r b'.

(** The members reconstituted one after the other, in the iteration
    order of the member set, with the handle of each. *)
Inductive MembersHandled (members : list Type_)
  : list Type_ -> Builder -> list TypeRef -> Builder -> Prop :=
| MembersHandled_nil b : MembersHandled members [] b [] b
| MembersHandled_cons t rest b r b1 rs b' :
    MemberHandle members t b r b1 ->
    MembersHandled members rest b1 rs b' ->
    MembersHandled members (t :: rest) b (r :: rs) b'.

(** The attributes of the redirected members, merged in order. *)
Definition lostMemberAttributes (members : list Type_) (additional : TypeAttributes)
  : TypeAttributes :=
  fold_left
    (fun acc t =>
       match redirected t with
       | Some _ => combineTypeAttributes "union" acc (getAttributes t)
       | None => acc
       end)
    members additional.

End Vocabulary.

(** ** The vocabulary of further properties *)

(** Every type that a handle resolves to in [b] is still there in [b']. *)
Definition keepsTypes (b b' : Builder) : Prop :=
  forall i e, lookupType b i = Some e -> lookupType b' i = Some e.

(** string | time. *)
Definition stringOrTime : list Type_ :=
  [PrimitiveType "string" []; PrimitiveType "time" []].


(** null | class. *)
Definition nullableClass : list Type_ :=
  [PrimitiveType "null" []; ObjectType KClass []].



Definition nullableClassRun : TypeRef * Builder :=
  outcome (replaceUnion (H:=plain) [] nullableClass 0 false builder0).


(** Two integer members, the second with a description. *)
Definition twoIntegers : list Type_ :=
  [PrimitiveType "integer" [];
   PrimitiveType "integer" [("description", OtherAttribute "a count")]].

Definition twoIntegersRun : TypeRef * Builder :=
  outcome (replaceUnion (H:=plain) [] twoIntegers 0 false builder0).

(** The types of a small graph, and a target language that needs a
    transformer for every type but the integer. *)
Definition someTypes : list Type_ :=
  [EnumType [] ["A"; "B"]; PrimitiveType "integer" []; UnionType [] nullableCount].

Definition needsTransformer (t : Type_) : bool :=
  negb (String.eqb (kind t) "integer").

(** A builder that holds the plain string type at handle [0] and in
    which handle [1] is the forwarding handle of the replacement in
    progress. *)
Definition builder1 : Builder := mkBuilder [Some plainString; None] false.

Definition redBlueRun : TypeRef * Builder :=
  outcome (replace (H:=plain) (mkRunContext false false)
             [EnumType [] ["Red"; "Blue"]] 1 builder1).

Section FurtherVocabulary.

Context `{Collaborators}.

(** The types that a strategy of the pass answers: a union with a
    member, not both a class and a map member, and no plain string
    among several string-like members; every array and enumeration; and
    every other type of a primitive string kind. *)
Definition replaceable (t : Type_) : Prop :=
  match t with
  | UnionType _ members =>
      members <> [] /\
      (findMember members "class" = None \/ findMember members "map" = None) /\
      (length (stringTypeMembers members) <= 1 \/
       forall m, m ∈ stringTypeMembers members -> kind m <> "string")
  | ArrayType _ _ | EnumType _ _ => True
  | _ => isPrimitiveStringTypeKind (kind t) = true
  end.

End FurtherVocabulary.

(** * Part II: properties *)

(** ** The monad *)

Lemma bind_Ok {A B} (m : M A) (k : A -> M B) b r b' :
  bind m k b = Ok (r, b') <->
  exists a b1, m b = Ok (a, b1) /\ k a b1 = Ok (r, b').
Proof.
  unfold bind. split.
  - destruct (m b) as [[a b1]|msg] eqn:E; [|discriminate].
    intros Hk. exists a, b1. split; [reflexivity | exact Hk].
  - intros (a & b1 & Hm & Hk). rewrite Hm. exact Hk.
Qed.

Lemma bind_Panic {A B} (m : M A) (k : A -> M B) b msg :
  bind m k b = Panic msg <->
  m b = Panic msg \/ exists a b1, m b = Ok (a, b1) /\ k a b1 = Panic msg.
Proof.
  unfold bind. split.
  - destruct (m b) as [[a b1]|msg'] eqn:E.
    + intros Hk. right. exists a, b1. split; [reflexivity | exact Hk].
    + intros [= ->]. left. reflexivity.
  - intros [Hm | (a & b1 & Hm & Hk)]; rewrite Hm; [reflexivity | exact Hk].
Qed.

Lemma ret_Ok {A} (a r : A) b b' : ret a b = Ok (r, b') <-> r = a /\ b' = b.
Proof. unfold ret. split; [intros [= <- <-] | intros [-> ->]]; auto. Qed.

Lemma assert_Ok c msg b r b' :
  assert c msg b = Ok (r, b') <-> c = true /\ b' = b.
Proof.
  unfold assert, ret, panic. destruct c; split.
  - intros [= <- <-]; auto.
  - intros [_ ->]. destruct r; reflexivity.
  - discriminate.
  - intros [? _]; discriminate.
Qed.

Lemma defined_Ok {A} (x : option A) b r b' :
  defined x b = Ok (r, b') <-> x = Some r /\ b' = b.
Proof.
  unfold defined, ret, panic. destruct x; split.
  - intros [= <- <-]; auto.
  - intros [[= ->] ->]; reflexivity.
  - discriminate.
  - intros [? _]; discriminate.
Qed.

(** Inversion of a successful run, one monadic step at a time. *)
Tactic Notation "inv_bind" hyp(H) "as" simple_intropattern(a) ident(b) ident(H1) :=
  apply bind_Ok in H; destruct H as (a & b & H1 & H).

Ltac inv_ret H :=
  first
    [ apply ret_Ok in H; destruct H as [? ?]; simplify_eq
    | apply assert_Ok in H; destruct H as [H ?]; simplify_eq
    | apply defined_Ok in H; destruct H as [H ?]; simplify_eq ].

(** ** The builder *)

#[local] Instance extends_refl : Reflexive extends.
Proof. intros b. unfold extends. reflexivity. Qed.

#[local] Instance extends_trans : Transitive extends.
Proof. intros b1 b2 b3. unfold extends. apply transitivity. Qed.

Lemma extends_slot b b' r x :
  extends b b' -> types b !! r = Some x -> types b' !! r = Some x.
Proof. intros Hext Hr. eapply prefix_lookup_Some; eauto. Qed.

Lemma extends_lookupType b b' r e :
  extends b b' -> lookupType b r = Some e -> lookupType b' r = Some e.
Proof.
  unfold lookupType. intros Hext Hr.
  destruct (types b !! r) as [[e'|]|] eqn:E; try discriminate.
  rewrite (extends_slot _ _ _ _ Hext E). exact Hr.
Qed.

(** Without a forwarding handle a constructor never fails; it returns a
    handle of the wanted type and leaves the other handles and the flag
    alone. *)
Lemma getOrAddType_fresh entry b :
  exists r b',
    getOrAddType entry None b = Ok (r, b') /\
    extends b b' /\
    lookupType b' r = Some entry /\
    lostTypeAttributes b' = lostTypeAttributes b /\
    (forall i e, lookupType b' i = Some e -> lookupType b i = Some e \/ e = entry).
Proof.
  unfold getOrAddType.
  destruct (list_find (fun e => e = Some entry) (types b)) as [[i x]|] eqn:E.
  - apply list_find_Some in E. destruct E as (Hi & -> & _).
    exists i, b. repeat split; auto.
    + reflexivity.
    + unfold lookupType. rewrite Hi. reflexivity.
  - eexists _, _. split; [reflexivity|]. cbn. repeat split.
    + unfold extends; cbn. apply prefix_app_r. reflexivity.
    + unfold lookupType; cbn. rewrite lookup_app_r by lia.
      replace (length (types b) - length (types b)) with 0 by lia. reflexivity.
    + intros i e. unfold lookupType; cbn.
      destruct (decide (i < length (types b))) as [Hlt|Hge].
      * rewrite lookup_app_l by exact Hlt. auto.
      * rewrite lookup_app_r by lia.
        destruct (i - length (types b)) as [|n]; cbn.
        -- intros [= <-]. auto.
        -- discriminate.
Qed.

(** With a forwarding handle the type is put at that handle. *)
Lemma getOrAddType_forward entry f b :
  getOrAddType entry (Some f) b =
    Ok (f, mkBuilder (<[f := Some entry]> (types b)) (lostTypeAttributes b)).
Proof. reflexivity. Qed.

Lemma lookupType_forward entry f b :
  f < length (types b) ->
  lookupType (mkBuilder (<[f := Some entry]> (types b)) (lostTypeAttributes b)) f
    = Some entry.
Proof.
  intros Hf. unfold lookupType; cbn. rewrite list_lookup_insert_eq by exact Hf.
  reflexivity.
Qed.

Lemma lookupType_forward_other entry f b r e :
  types b !! f = Some None ->
  lookupType b r = Some e ->
  lookupType (mkBuilder (<[f := Some entry]> (types b)) (lostTypeAttributes b)) r
    = Some e.
Proof.
  intros Hf Hr. unfold lookupType in *; cbn.
  destruct (decide (f = r)) as [->|Hne].
  - rewrite Hf in Hr. discriminate.
  - rewrite list_lookup_insert_ne by exact Hne. exact Hr.
Qed.

Lemma lookupType_forward_inv entry f b i e :
  lookupType (mkBuilder (<[f := Some entry]> (types b)) (lostTypeAttributes b)) i
    = Some e ->
  e = entry \/ lookupType b i = Some e.
Proof.
  unfold lookupType; cbn. destruct (decide (f = i)) as [->|Hne].
  - destruct (decide (i < length (types b))) as [Hlt|Hge].
    + rewrite list_lookup_insert_eq by exact Hlt. intros [= <-]. auto.
    + rewrite list_insert_ge by lia. auto.
  - rewrite list_lookup_insert_ne by exact Hne. auto.
Qed.

(** Chains of extensions, from the hypotheses at hand. *)
Ltac chain :=
  solve [ reflexivity | eassumption | etransitivity; [eassumption | chain] ].

Lemma unfilled_extends b b' f :
  extends b b' -> types b !! f = Some None -> types b' !! f = Some None.
Proof. intros Hext Hf. exact (extends_slot _ _ _ _ Hext Hf). Qed.

Lemma unfilled_lt b f : types b !! f = Some None -> f < length (types b).
Proof. intros Hf. eapply lookup_lt_Some; eauto. Qed.

Lemma addsOnly_refl P b : addsOnly P b b.
Proof. repeat split; [reflexivity | auto]. Qed.

Lemma addsOnly_trans P b1 b2 b3 :
  addsOnly P b1 b2 -> addsOnly P b2 b3 -> addsOnly P b1 b3.
Proof.
  intros (He1 & Hl1 & Hn1) (He2 & Hl2 & Hn2). repeat split.
  - etransitivity; eauto.
  - congruence.
  - intros i e Hi. destruct (Hn2 i e Hi) as [Hi2|HP]; [|auto].
    exact (Hn1 i e Hi2).
Qed.

Lemma addsOnly_weaken (P Q : TypeEntry -> Prop) b b' :
  (forall e, P e -> Q e) -> addsOnly P b b' -> addsOnly Q b b'.
Proof.
  intros HPQ (He & Hl & Hn). repeat split; auto.
  intros i e Hi. destruct (Hn i e Hi); auto.
Qed.

Lemma getOrAddType_None_Ok entry b r b' :
  getOrAddType entry None b = Ok (r, b') ->
  lookupType b' r = Some entry /\ addsOnly (fun e => e = entry) b b'.
Proof.
  intros Hrun.
  destruct (getOrAddType_fresh entry b) as (r0 & b0 & Hrun0 & He & Hl & Hf & Hn).
  rewrite Hrun0 in Hrun. injection Hrun as <- <-.
  repeat split; auto.
Qed.

(** ** Sorting the cases *)

Lemma insertSorted_perm c l : insertSorted c l ≡ₚ c :: l.
Proof.
  induction l as [|x l IH]; cbn; [reflexivity|].
  destruct (String.leb c x); [reflexivity|].
  rewrite IH. apply Permutation_swap.
Qed.

Lemma Array_sort_perm l : Array_sort l ≡ₚ l.
Proof.
  induction l as [|x l IH]; cbn; [reflexivity|].
  fold (Array_sort l). rewrite insertSorted_perm, IH. reflexivity.
Qed.

Lemma insertSorted_hd c x l :
  leb_string x c -> HdRel leb_string x l -> HdRel leb_string x (insertSorted c l).
Proof.
  intros Hxc Hl. destruct l as [|y l]; cbn.
  - constructor. exact Hxc.
  - destruct (String.leb c y); constructor; [exact Hxc|].
    inversion Hl; subst. assumption.
Qed.

Lemma insertSorted_sorted c l :
  Sorted leb_string l -> Sorted leb_string (insertSorted c l).
Proof.
  induction 1 as [|x l Hl IH Hhd]; cbn.
  - repeat constructor.
  - destruct (String.leb c x) eqn:E.
    + constructor; [constructor; assumption|]. constructor. exact E.
    + constructor; [exact IH|]. apply insertSorted_hd; [|exact Hhd].
      destruct (String.leb_total c x) as [Hc|Hc]; [congruence | exact Hc].
Qed.

Lemma Array_sort_sorted l : Sorted leb_string (Array_sort l).
Proof.
  induction l as [|x l IH]; cbn; [constructor|].
  apply insertSorted_sorted. exact IH.
Qed.

(** ** Sets and maps of handles *)

Lemma elem_of_Set_add s x y : y ∈ Set_add s x <-> y ∈ s \/ y = x.
Proof.
  unfold Set_add. destruct (decide (x ∈ s)) as [Hin|Hnin].
  - split; [auto|]. intros [Hy | ->]; assumption.
  - rewrite elem_of_app, list_elem_of_singleton. reflexivity.
Qed.

Lemma Set_add_NoDup s x : NoDup s -> NoDup (Set_add s x).
Proof.
  intros Hs. unfold Set_add. destruct (decide (x ∈ s)) as [Hin|Hnin]; [exact Hs|].
  apply NoDup_app. split; [exact Hs|]. split.
  - intros y Hy Hyx. apply list_elem_of_singleton in Hyx. subst. contradiction.
  - apply NoDup_singleton.
Qed.

Lemma Set_fold_spec xs :
  forall acc, NoDup acc ->
    NoDup (fold_left Set_add xs acc) /\
    forall y, y ∈ fold_left Set_add xs acc <-> y ∈ acc \/ y ∈ xs.
Proof.
  induction xs as [|x xs IH]; intros acc Hacc; cbn.
  - split; [exact Hacc|]. intros y. rewrite elem_of_nil. tauto.
  - destruct (IH (Set_add acc x) (Set_add_NoDup _ _ Hacc)) as [Hnd Hin].
    split; [exact Hnd|]. intros y. rewrite Hin, elem_of_Set_add, elem_of_cons. tauto.
Qed.

(** [new Set(xs)] holds every handle of [xs] once. *)
Lemma Set_from_spec xs :
  NoDup (Set_from xs) /\ forall y, y ∈ Set_from xs <-> y ∈ xs.
Proof.
  destruct (Set_fold_spec xs [] (NoDup_nil_2)) as [Hnd Hin].
  split; [exact Hnd|]. intros y. rewrite Hin, elem_of_nil. tauto.
Qed.

Lemma Map_get_set_eq m k v : Map_get (Map_set m k v) k = Some v.
Proof.
  induction m as [|[k' v'] m IH]; cbn.
  - rewrite String.eqb_refl. reflexivity.
  - destruct (String.eqb k' k) eqn:E; cbn; rewrite E; [reflexivity | exact IH].
Qed.

Lemma Map_get_set_ne m k k' v : k <> k' -> Map_get (Map_set m k v) k' = Map_get m k'.
Proof.
  intros Hne. induction m as [|[k0 v0] m IH]; cbn.
  - apply String.eqb_neq in Hne. rewrite Hne. reflexivity.
  - destruct (String.eqb k0 k) eqn:E; cbn.
    + apply String.eqb_eq in E. subst k0.
      apply String.eqb_neq in Hne. rewrite Hne. reflexivity.
    + destruct (String.eqb k0 k'); [reflexivity | exact IH].
Qed.

Lemma Map_get_set_is_Some m k k' v :
  k = k' \/ is_Some (Map_get m k') -> is_Some (Map_get (Map_set m k v) k').
Proof.
  destruct (decide (k = k')) as [->|Hne].
  - intros _. rewrite Map_get_set_eq. eauto.
  - intros [?|Hs]; [contradiction|]. rewrite Map_get_set_ne by exact Hne. exact Hs.
Qed.

Lemma recordMembers_is_Some ts :
  forall rs result m,
    length rs = length ts ->
    m ∈ ts \/ is_Some (Map_get result (kind m)) ->
    is_Some (Map_get (recordMembers result ts rs) (kind m)).
Proof.
  induction ts as [|t ts IH]; intros rs result m Hlen Hm.
  - destruct Hm as [Hm|Hm]; [apply elem_of_nil in Hm; contradiction | exact Hm].
  - destruct rs as [|r rs]; [discriminate|]. cbn in Hlen.
    unfold recordMembers; cbn. apply IH; [lia|].
    destruct Hm as [Hm|Hm].
    + apply elem_of_cons in Hm. destruct Hm as [->|Hm]; [right|left; exact Hm].
      apply Map_get_set_is_Some. left. reflexivity.
    + right. apply Map_get_set_is_Some. right. exact Hm.
Qed.

Lemma recordMembers_other ts k :
  forall rs result,
    (forall t, t ∈ ts -> kind t <> k) ->
    Map_get (recordMembers result ts rs) k = Map_get result k.
Proof.
  induction ts as [|t ts IH]; intros rs result Hk; [reflexivity|].
  destruct rs as [|r rs]; [reflexivity|].
  unfold recordMembers; cbn. fold (recordMembers (Map_set result (kind t) r) ts rs).
  rewrite IH by (intros t' Ht'; apply Hk; right; exact Ht').
  apply Map_get_set_ne. apply Hk. left.
Qed.

(** The handle recorded under a kind is the handle of the last member
    of that kind. *)
Lemma recordMembers_last ts :
  forall rs result i t x,
    ts !! i = Some t -> rs !! i = Some x ->
    (forall j t', i < j -> ts !! j = Some t' -> kind t' <> kind t) ->
    Map_get (recordMembers result ts rs) (kind t) = Some x.
Proof.
  induction ts as [|t0 ts IH]; intros rs result i t x Ht Hx Hlast; [discriminate|].
  destruct rs as [|r rs]; [destruct i; discriminate|].
  unfold recordMembers; cbn. fold (recordMembers (Map_set result (kind t0) r) ts rs).
  destruct i as [|i]; cbn in Ht, Hx.
  - injection Ht as ->. injection Hx as ->.
    rewrite recordMembers_other; [apply Map_get_set_eq|].
    intros t' Ht'. apply list_elem_of_lookup in Ht'. destruct Ht' as [j Hj].
    apply (Hlast (S j)); [lia | exact Hj].
  - eapply IH; eauto. intros j t' Hij Hj. apply (Hlast (S j)); [lia | exact Hj].
Qed.

Lemma findMember_Some members k m :
  findMember members k = Some m -> m ∈ members /\ kind m = k.
Proof.
  unfold findMember. intros Hf. apply find_some in Hf. destruct Hf as [Hin Hk].
  split; [apply list_elem_of_In; exact Hin | apply String.eqb_eq; exact Hk].
Qed.

(** ** Enumerations *)

(** C3.  For every enumeration, [replaceEnum] returns the forwarding
    handle, at which it puts a plain unrestricted string type; the
    transformation attached to it decodes the plain string type into a
    single choice with, for each case in lexicographically sorted
    order, a string match of the case continued by a string producer of
    the case; the target of the transformation is an enumeration with
    the original cases and the original attributes. *)
Theorem replaceEnum_string_with_case_matcher
    (attributes : TypeAttributes) (cases : list string) (forwardingRef : TypeRef)
    (debug : bool) (b : Builder) :
  types b !! forwardingRef = Some None ->
  exists stringType target sortedCases b',
    replaceEnum attributes cases forwardingRef debug b = Ok (forwardingRef, b') /\
    lookupType b' forwardingRef =
      Some (mkEntry (StringNode unrestricted)
              (makeAttributes
                 (mkTransformation target (enumDecoder stringType sortedCases)))) /\
    lookupType b' stringType =
      Some (mkEntry (StringNode unrestricted) emptyTypeAttributes) /\
    lookupType b' target = Some (mkEntry (EnumNode cases) attributes) /\
    Sorted leb_string sortedCases /\
    sortedCases ≡ₚ cases.
Proof.
  intros Hf. unfold replaceEnum, builder_getStringType, builder_getEnumType.
  destruct (getOrAddType_fresh (mkEntry (StringNode unrestricted) emptyTypeAttributes) b)
    as (s & b1 & Hs & Hext1 & Hls & _ & _).
  destruct (getOrAddType_fresh (mkEntry (EnumNode cases) attributes) b1)
    as (e & b2 & He & Hext2 & Hle & _ & _).
  pose proof (unfilled_extends _ _ _ Hext2 (unfilled_extends _ _ _ Hext1 Hf)) as Hf2.
  exists s, e, (Array_sort cases). eexists.
  split; [|split; [|split; [|split; [|split]]]].
  - unfold bind. rewrite Hs, He. rewrite getOrAddType_forward. reflexivity.
  - apply lookupType_forward. eapply unfilled_lt; eauto.
  - apply lookupType_forward_other; [exact Hf2|].
    eapply extends_lookupType; eauto.
  - apply lookupType_forward_other; [exact Hf2 | exact Hle].
  - apply Array_sort_sorted.
  - apply Array_sort_perm.
Qed.

Section Properties.

Context `{Collaborators}.

(** ** Arrays *)


(** ** Transformed strings *)


(** ** Unions: the anatomy of a run of [replaceUnion] *)

Lemma transformerForKind_Ok members byKind haveUnion k b o b' :
  transformerForKind members byKind haveUnion k b = Ok (o, b') ->
  b' = b /\ o = branchFor members byKind haveUnion k.
Proof.
  unfold transformerForKind, branchFor, memberForKind.
  destruct (findMember members k) as [m|].
  - intros Hrun. inv_bind Hrun as ref b1 Href. inv_ret Href. inv_ret Hrun.
    rewrite Href. auto.
  - intros Hrun. inv_ret Hrun. auto.
Qed.

Lemma transformerForStringType_Ok byKind haveUnion s t b o mst b' :
  transformerForStringType byKind haveUnion (Some s) t b = Ok ((o, mst), b') ->
  b' = b /\ mst = Some s /\ o = stringAlternative byKind haveUnion s t.
Proof.
  unfold transformerForStringType, stringAlternative, memberForKind.
  intros Hrun. inv_bind Hrun as ref b1 Href. inv_ret Href. rewrite Href.
  destruct (String.eqb (kind t) "string").
  - inv_ret Hrun. auto.
  - destruct t; cbn [getStringType] in Hrun;
      inv_bind Hrun as [s' mst'] b2 Hs; inv_ret Hs; inv_ret Hrun; auto.
Qed.

Lemma transformersForStringTypes_Ok byKind haveUnion s ts :
  forall b alts mst b',
    transformersForStringTypes byKind haveUnion (Some s) ts b = Ok ((alts, mst), b') ->
    b' = b /\
    Forall2 (fun t a => stringAlternative byKind haveUnion s t = Some a) ts alts.
Proof.
  induction ts as [|t ts IH]; intros b alts mst b' Hrun; cbn in Hrun.
  - inv_ret Hrun. auto.
  - inv_bind Hrun as [o mst1] b1 Ht.
    apply transformerForStringType_Ok in Ht. destruct Ht as (-> & -> & ->).
    inv_bind Hrun as x b2 Hx. inv_ret Hx.
    inv_bind Hrun as [xs mst2] b3 Hxs.
    apply IH in Hxs. destruct Hxs as [-> HF].
    inv_ret Hrun.
    split; [reflexivity|]. constructor; assumption.
Qed.

Lemma stringAlternative_Some byKind haveUnion s t a :
  stringAlternative byKind haveUnion s t = Some a ->
  Alternative byKind haveUnion s t a.
Proof.
  unfold stringAlternative.
  destruct (Map_get byKind (kind t)) as [ref|] eqn:Hg; [|discriminate].
  destruct (String.eqb (kind t) "string") eqn:Hk.
  - apply String.eqb_eq in Hk. unfold consumer.
    destruct haveUnion; cbn; [|discriminate].
    intros [= <-]. apply Alternative_plain; auto.
  - apply String.eqb_neq in Hk.
    destruct t; intros [= <-];
      try (apply Alternative_parse; [exact Hk | discriminate | exact Hg]).
    apply Alternative_enum. exact Hg.
Qed.

Lemma findMember_stringType members t rest :
  stringTypeMembers members = t :: rest ->
  exists m, findMember members (kind t) = Some m.
Proof.
  intros Hs.
  assert (Hin : t ∈ members).
  { assert (Hin : t ∈ stringTypeMembers members) by (rewrite Hs; left).
    unfold stringTypeMembers in Hin. apply list_elem_of_filter in Hin. tauto. }
  unfold findMember.
  destruct (find (fun t0 => String.eqb (kind t0) (kind t)) members) as [m|] eqn:E.
  - eauto.
  - exfalso. apply list_elem_of_In in Hin.
    pose proof (find_none _ _ E t Hin) as Hn. cbn in Hn.
    rewrite String.eqb_refl in Hn. discriminate.
Qed.

Lemma transformerForString_Ok members byKind haveUnion b o b' :
  transformerForString members byKind haveUnion b = Ok (o, b') ->
  addsOnly (fun e => e = plainString) b b' /\
  StringBranch members byKind haveUnion b' o.
Proof.
  unfold transformerForString.
  destruct (stringTypeMembers members) as [|t [|t' rest]] eqn:Hs; cbn [length Nat.eqb].
  - intros Hrun. inv_ret Hrun. split; [apply addsOnly_refl|].
    apply StringBranch_absent. exact Hs.
  - intros Hrun. inv_bind Hrun as t0 b1 Ht. cbn in Ht. inv_ret Ht.
    pose proof Hrun as Hrun1.
    apply transformerForKind_Ok in Hrun. destruct Hrun as [-> ->].
    split; [apply addsOnly_refl|].
    unfold branchFor.
    destruct (findMember_stringType _ _ _ Hs) as [m Hm]. rewrite Hm.
    destruct (Map_get byKind (kind t)) as [ref|] eqn:Hg.
    + eapply StringBranch_single; eauto.
    + exfalso. revert Hrun1. unfold transformerForKind, memberForKind.
      rewrite Hm, Hg. discriminate.
  - intros Hrun. inv_bind Hrun as [s1 mst1] b1 Hs1.
    cbn [getStringType] in Hs1. inv_bind Hs1 as s b2 Hadd. inv_ret Hs1.
    apply getOrAddType_None_Ok in Hadd. destruct Hadd as [Hls Hadd].
    inv_bind Hrun as [s2 mst2] b3 Hs2. cbn [getStringType] in Hs2. inv_ret Hs2.
    inv_bind Hrun as [alts mst3] b4 Halts.
    apply transformersForStringTypes_Ok in Halts. destruct Halts as [-> HF].
    inv_ret Hrun. split; [exact Hadd|].
    apply StringBranch_combined; [rewrite Hs; cbn; lia | exact Hls |].
    rewrite Hs. eapply Forall2_impl; [exact HF|].
    intros x y Hxy. apply stringAlternative_Some. exact Hxy.
Qed.

Lemma reconstituteMember_Ok members additional t b r additional' b' :
  reconstituteMember members additional t b = Ok ((r, additional'), b') ->
  MemberHandle members t b r b' /\
  additional' =
    match redirected t with
    | Some _ => combineTypeAttributes "union" additional (getAttributes t)
    | None => additional
    end.
Proof.
  unfold reconstituteMember, redirected.
  destruct (isPrimitiveStringTypeKind (kind t)) eqn:Hp.
  - destruct (targetTypeKindForTransformedStringTypeKind (kind t)) as [k|] eqn:Hk.
    + destruct (findMember members k) as [m|] eqn:Hm.
      * intros Hrun. inv_bind Hrun as r0 b1 Hr. inv_ret Hrun.
        split; [|reflexivity]. eapply Member_reused; eauto.
        unfold redirected. rewrite Hp. exact Hk.
      * intros Hrun. inv_bind Hrun as r0 b1 Hr. inv_ret Hrun.
        apply getOrAddType_None_Ok in Hr. destruct Hr as [Hl Hadd].
        split; [|reflexivity]. eapply Member_created; eauto.
        unfold redirected. rewrite Hp. exact Hk.
    + intros Hrun. inv_bind Hrun as r0 b1 Hr. inv_ret Hrun.
      split; [|reflexivity]. apply Member_unchanged; [|exact Hr].
      unfold redirected. rewrite Hp. exact Hk.
  - intros Hrun. inv_bind Hrun as r0 b1 Hr. inv_ret Hrun.
    split; [|reflexivity]. apply Member_unchanged; [|exact Hr].
    unfold redirected. rewrite Hp. reflexivity.
Qed.

Lemma wellBehaved_extends {A} (m : M A) b a b' :
  wellBehaved m -> m b = Ok (a, b') -> extends b b'.
Proof.
  intros Hw Hrun. destruct (Hw b) as (a0 & b0 & Hrun0 & Hext).
  rewrite Hrun0 in Hrun. injection Hrun as <- <-. exact Hext.
Qed.

Lemma MemberHandle_extends members t b r b' :
  engineContract -> MemberHandle members t b r b' -> extends b b'.
Proof.
  intros [Htype _] [k m _ _ Hr | k _ _ _ Hadd | _ Hr].
  - eapply wellBehaved_extends; eauto.
  - apply Hadd.
  - eapply wellBehaved_extends; eauto.
Qed.

Lemma mapMapEntries_Ok members rest :
  forall result additional b byKind additional' b',
    mapMapEntries members rest result additional b = Ok ((byKind, additional'), b') ->
    exists rs,
      MembersHandled members rest b rs b' /\
      byKind = recordMembers result rest rs /\
      additional' = lostMemberAttributes rest additional.
Proof.
  induction rest as [|t rest IH]; intros result additional b byKind additional' b' Hrun;
    cbn [mapMapEntries] in Hrun.
  - inv_ret Hrun. exists []. split; [constructor|]. split; reflexivity.
  - inv_bind Hrun as [r add1] b1 Hmember.
    apply reconstituteMember_Ok in Hmember. destruct Hmember as [Hhandle ->].
    apply IH in Hrun. destruct Hrun as (rs & Hrs & -> & ->).
    exists (r :: rs). split; [econstructor; eauto|]. split; reflexivity.
Qed.

Lemma MembersHandled_extends members rest b rs b' :
  engineContract -> MembersHandled members rest b rs b' -> extends b b'.
Proof.
  intros Hc. induction 1 as [|t rest b r b1 rs b' Hh _ IH]; [reflexivity|].
  etransitivity; [|exact IH]. eapply MemberHandle_extends; eauto.
Qed.

Lemma MembersHandled_length members rest b rs b' :
  MembersHandled members rest b rs b' -> length rs = length rest.
Proof. induction 1; cbn; congruence. Qed.

Lemma replaceUnion_Ok attributes members forwardingRef debug b r b' :
  replaceUnion attributes members forwardingRef debug b = Ok (r, b') ->
  exists byKind additional b1 target b2 forString b3 anyType b4,
    members <> [] /\
    mapMapEntries members members [] emptyTypeAttributes b
      = Ok ((byKind, additional), b1) /\
    (if (1 <? length (Set_from (Map_values byKind)))%nat
     then builder_getUnionType attributes (Set_from (Map_values byKind)) None b1
          = Ok (target, b2)
     else iterableFirst (Set_from (Map_values byKind)) = Some target /\
          b2 = mkBuilder (types b1) true) /\
    transformerForString members byKind
      (1 <? length (Set_from (Map_values byKind)))%nat b2 = Ok (forString, b3) /\
    (branchFor members byKind (1 <? length (Set_from (Map_values byKind)))%nat "class"
       = None \/
     branchFor members byKind (1 <? length (Set_from (Map_values byKind)))%nat "map"
       = None) /\
    getOrAddType (anyEntry emptyTypeAttributes) None b3 = Ok (anyType, b4) /\
    r = forwardingRef /\
    b' = mkBuilder
           (<[forwardingRef :=
                Some (anyEntry
                        (combineTypeAttributes "union"
                           (makeAttributes
                              (mkTransformation target
                                 (unionDecoder members byKind
                                    (1 <? length (Set_from (Map_values byKind)))%nat
                                    anyType forString)))
                           additional))]> (types b4))
           (lostTypeAttributes b4).
Proof.
  unfold replaceUnion. intros Hrun.
  inv_bind Hrun as u0 b0 Hne. inv_ret Hne.
  inv_bind Hrun as [byKind additional] b1 Hmembers.
  inv_bind Hrun as u1 b1' Hlost.
  inv_bind Hrun as target b2 Htarget.
  inv_bind Hrun as forString b3 Hstring.
  inv_bind Hrun as cls b3' Hcls. apply transformerForKind_Ok in Hcls. destruct Hcls as [-> ->].
  inv_bind Hrun as mp b3' Hmp. apply transformerForKind_Ok in Hmp. destruct Hmp as [-> ->].
  inv_bind Hrun as u2 b3' Hboth. inv_ret Hboth.
  inv_bind Hrun as anyType b4 Hany.
  inv_bind Hrun as forNull b4' Hn. apply transformerForKind_Ok in Hn. destruct Hn as [-> ->].
  inv_bind Hrun as forInteger b4' Hn. apply transformerForKind_Ok in Hn. destruct Hn as [-> ->].
  inv_bind Hrun as forDouble b4' Hn. apply transformerForKind_Ok in Hn. destruct Hn as [-> ->].
  inv_bind Hrun as forBool b4' Hn. apply transformerForKind_Ok in Hn. destruct Hn as [-> ->].
  inv_bind Hrun as forArray b4' Hn. apply transformerForKind_Ok in Hn. destruct Hn as [-> ->].
  unfold builder_getPrimitiveType in Hrun. rewrite getOrAddType_forward in Hrun.
  injection Hrun as <- <-.
  exists byKind, additional, b1, target, b2, forString, b3, anyType, b4.
  split; [|split; [|split; [|split; [|split; [|split; [|split]]]]]]; auto.
  - intros ->. cbn in Hne. discriminate.
  - revert Hlost Htarget.
    destruct (1 <? length (Set_from (Map_values byKind)))%nat; cbn; intros Hlost Htarget.
    + inv_ret Hlost. exact Htarget.
    + unfold builder_setLostTypeAttributes in Hlost.
      injection Hlost as <-. inv_ret Htarget. auto.
  - apply orb_true_iff in Hboth.
    destruct Hboth as [Hb|Hb]; [left|right];
      match type of Hb with negb (isSome ?x) = true => destruct x; [discriminate|reflexivity] end.
Qed.

Lemma StringBranch_lift members byKind haveUnion b b' o :
  (forall r e, lookupType b r = Some e -> lookupType b' r = Some e) ->
  StringBranch members byKind haveUnion b o ->
  StringBranch members byKind haveUnion b' o.
Proof.
  intros Hlift [Hs | t ref Hs Hg | s alts Hlen Hl HF].
  - apply StringBranch_absent; assumption.
  - eapply StringBranch_single; eassumption.
  - apply StringBranch_combined; auto.
Qed.

(** A successful run of [replaceUnion], seen from the outside: what is
    at the forwarding handle afterwards, and how the parts came about. *)
Lemma replaceUnion_view attributes members forwardingRef debug b r b' :
  engineContract ->
  types b !! forwardingRef = Some None ->
  replaceUnion attributes members forwardingRef debug b = Ok (r, b') ->
  exists rs b1 target forString anyType,
    let byKind := recordMembers [] members rs in
    let memberSet := Set_from (Map_values byKind) in
    let haveUnion := (1 <? length memberSet)%nat in
    r = forwardingRef /\
    members <> [] /\
    MembersHandled members members b rs b1 /\
    lookupType b' forwardingRef =
      Some (anyEntry
              (combineTypeAttributes "union"
                 (makeAttributes
                    (mkTransformation target
                       (unionDecoder members byKind haveUnion anyType forString)))
                 (lostMemberAttributes members emptyTypeAttributes))) /\
    lookupType b' anyType = Some (anyEntry emptyTypeAttributes) /\
    StringBranch members byKind haveUnion b' forString /\
    (branchFor members byKind haveUnion "class" = None \/
     branchFor members byKind haveUnion "map" = None) /\
    (if haveUnion
     then lookupType b' target = Some (mkEntry (UnionNode memberSet) attributes) /\
          lostTypeAttributes b' = lostTypeAttributes b1
     else memberSet = [target] /\
          lostTypeAttributes b' = true /\
          forall i e, lookupType b' i = Some e ->
                      lookupType b1 i = Some e \/ isUnionNode e = false).
Proof.
  intros Hc Hf Hrun.
  apply replaceUnion_Ok in Hrun.
  destruct Hrun as (byKind & additional & b1 & target & b2 & forString & b3 & anyType
                    & b4 & Hne & Hmembers & Htarget & Hstring & Hboth & Hany & -> & ->).
  apply mapMapEntries_Ok in Hmembers. destruct Hmembers as (rs & Hrs & -> & ->).
  pose proof (MembersHandled_extends _ _ _ _ _ Hc Hrs) as Hext1.
  apply transformerForString_Ok in Hstring. destruct Hstring as [HaddS Hbranch].
  apply getOrAddType_None_Ok in Hany. destruct Hany as [Hlany HaddA].
  exists rs, b1, target, forString, anyType. cbn zeta.
  set (byKind := recordMembers [] members rs) in *.
  assert (Hext2 : extends b1 b2 /\
                  (forall i e, lookupType b2 i = Some e ->
                     lookupType b1 i = Some e \/
                     ((1 <? length (Set_from (Map_values byKind)))%nat = true /\
                      e = mkEntry (UnionNode (Set_from (Map_values byKind))) attributes))).
  { destruct (1 <? length (Set_from (Map_values byKind)))%nat.
    - apply getOrAddType_None_Ok in Htarget. destruct Htarget as [_ (He & _ & Hn)].
      split; [exact He|]. intros i e Hi. destruct (Hn i e Hi); auto.
    - destruct Htarget as [_ ->]. split; [unfold extends; reflexivity|]. auto. }
  destruct Hext2 as [Hext2 Hnew2].
  destruct HaddS as (Hext3 & Hlost3 & Hnew3).
  destruct HaddA as (Hext4 & Hlost4 & Hnew4).
  assert (Hf4 : types b4 !! forwardingRef = Some None).
  { eapply unfilled_extends; [|exact Hf]. chain. }
  split; [reflexivity|]. split; [exact Hne|]. split; [exact Hrs|].
  split; [apply lookupType_forward; eapply unfilled_lt; eauto|].
  split; [apply lookupType_forward_other; [exact Hf4 | exact Hlany]|].
  split.
  { eapply StringBranch_lift; [|exact Hbranch].
    intros r e Hr. apply lookupType_forward_other; [exact Hf4|].
    eapply extends_lookupType; [exact Hext4 | exact Hr]. }
  split; [exact Hboth|].
  destruct (1 <? length (Set_from (Map_values byKind)))%nat eqn:Hhu.
  - apply getOrAddType_None_Ok in Htarget. destruct Htarget as [Hlt (_ & Hlost2 & _)].
    split.
    + apply lookupType_forward_other; [exact Hf4|].
      eapply extends_lookupType; [|exact Hlt]. chain.
    + cbn. congruence.
  - destruct Htarget as [Hfirst ->]. split; [|split].
    + apply Nat.ltb_ge in Hhu. unfold iterableFirst in Hfirst.
      destruct (Set_from (Map_values byKind)) as [|x [|y l]]; cbn in *;
        [discriminate | congruence | lia].
    + cbn. rewrite Hlost4, Hlost3. reflexivity.
    + intros i e Hi. apply lookupType_forward_inv in Hi.
      destruct Hi as [-> | Hi]; [right; reflexivity|].
      destruct (Hnew4 i e Hi) as [Hi3 | ->]; [|right; reflexivity].
      destruct (Hnew3 i e Hi3) as [Hi2 | ->]; [|right; reflexivity].
      destruct (Hnew2 i e Hi2) as [Hi1 | [? _]]; [left; exact Hi1 | discriminate].
Qed.

Lemma Map_get_value m k v : Map_get m k = Some v -> v ∈ Map_values m.
Proof.
  unfold Map_values. induction m as [|[k' v'] m IH]; cbn; [discriminate|].
  destruct (String.eqb k' k); [intros [= ->]; left | intros Hg; right; auto].
Qed.

(** The call by which [reconstituteMember] obtains the handle. *)
Lemma reconstituteMember_call members additional t b r additional' b' :
  reconstituteMember members additional t b = Ok ((r, additional'), b') ->
  match redirected t with
  | Some k =>
      match findMember members k with
      | Some m => builder_reconstituteType m b = Ok (r, b')
      | None => builder_getPrimitiveType k None None b = Ok (r, b')
      end
  | None => builder_reconstituteType t b = Ok (r, b')
  end.
Proof.
  unfold reconstituteMember, redirected.
  destruct (isPrimitiveStringTypeKind (kind t)).
  - destruct (targetTypeKindForTransformedStringTypeKind (kind t)) as [k|].
    + destruct (findMember members k) as [m|]; intros Hrun;
        inv_bind Hrun as r0 b1 Hr; inv_ret Hrun; exact Hr.
    + intros Hrun. inv_bind Hrun as r0 b1 Hr. inv_ret Hrun. exact Hr.
  - intros Hrun. inv_bind Hrun as r0 b1 Hr. inv_ret Hrun. exact Hr.
Qed.

(** The run of the loop, member by member: when the loop reaches a
    member, it has run over the members before it, and it calls
    [reconstituteMember] in the state that this has left. *)
Lemma mapMapEntries_members members rest :
  forall result additional b byKind additional' b',
    mapMapEntries members rest result additional b = Ok ((byKind, additional'), b') ->
    exists rs,
      MembersHandled members rest b rs b' /\
      byKind = recordMembers result rest rs /\
      additional' = lostMemberAttributes rest additional /\
      forall i t x,
        rest !! i = Some t -> rs !! i = Some x ->
        exists byKind_i additional_i bi additional_i' bi',
          mapMapEntries members (take i rest) result additional b
            = Ok ((byKind_i, additional_i), bi) /\
          reconstituteMember members additional_i t bi = Ok ((x, additional_i'), bi') /\
          MembersHandled members (drop (S i) rest) bi' (drop (S i) rs) b'.
Proof.
  induction rest as [|t0 rest IH]; intros result additional b byKind additional' b' Hrun;
    cbn [mapMapEntries] in Hrun.
  - inv_ret Hrun. exists []. split; [constructor|]. split; [reflexivity|].
    split; [reflexivity|]. intros i t x Ht. discriminate.
  - inv_bind Hrun as [r add1] b1 Hmember.
    pose proof Hmember as Hcall.
    apply reconstituteMember_Ok in Hmember. destruct Hmember as [Hhandle Hadd1].
    apply IH in Hrun. destruct Hrun as (rs & Hrs & -> & -> & Hat).
    exists (r :: rs). split; [econstructor; eauto|]. split; [reflexivity|].
    split; [rewrite Hadd1; reflexivity|].
    intros [|i] t x Ht Hx; cbn in Ht, Hx.
    + injection Ht as ->. injection Hx as ->.
      exists result, additional, b, add1, b1.
      split; [reflexivity|]. split; [exact Hcall | exact Hrs].
    + destruct (Hat i t x Ht Hx) as (byKind_i & add_i & bi & add_i' & bi' & Hpre & Hc & Hpost).
      exists byKind_i, add_i, bi, add_i', bi'.
      split; [|split; [exact Hc | exact Hpost]].
      cbn [take mapMapEntries]. unfold bind. rewrite Hcall. exact Hpre.
Qed.

(** A successful run of [replaceUnion], from the loop over the members
    to the type at the forwarding handle: the map and the attributes
    that the loop computed, the handles of the members, and how the
    replacement is built from them. *)
Lemma replaceUnion_run attributes members forwardingRef debug b r b' :
  engineContract ->
  types b !! forwardingRef = Some None ->
  replaceUnion attributes members forwardingRef debug b = Ok (r, b') ->
  exists byKind additional b1 rs target forString anyType,
    let memberSet := Set_from (Map_values byKind) in
    let haveUnion := (1 <? length memberSet)%nat in
    r = forwardingRef /\
    mapMapEntries members members [] emptyTypeAttributes b
      = Ok ((byKind, additional), b1) /\
    MembersHandled members members b rs b1 /\
    byKind = recordMembers [] members rs /\
    additional = lostMemberAttributes members emptyTypeAttributes /\
    keepsTypes b1 b' /\
    lookupType b' forwardingRef =
      Some (anyEntry
              (combineTypeAttributes "union"
                 (makeAttributes
                    (mkTransformation target
                       (unionDecoder members byKind haveUnion anyType forString)))
                 additional)) /\
    lookupType b' anyType = Some (anyEntry emptyTypeAttributes) /\
    StringBranch members byKind haveUnion b' forString /\
    (branchFor members byKind haveUnion "class" = None \/
     branchFor members byKind haveUnion "map" = None) /\
    (if haveUnion
     then lookupType b' target = Some (mkEntry (UnionNode memberSet) attributes) /\
          lostTypeAttributes b' = lostTypeAttributes b1
     else memberSet = [target] /\
          lostTypeAttributes b' = true /\
          forall i e, lookupType b' i = Some e ->
                      lookupType b1 i = Some e \/ isUnionNode e = false) /\
    (forall i t x,
       members !! i = Some t -> rs !! i = Some x ->
       exists byKind_i additional_i bi additional_i' bi',
         mapMapEntries members (take i members) [] emptyTypeAttributes b
           = Ok ((byKind_i, additional_i), bi) /\
         reconstituteMember members additional_i t bi = Ok ((x, additional_i'), bi') /\
         MembersHandled members (drop (S i) members) bi' (drop (S i) rs) b1).
Proof.
  intros Hc Hf Hrun.
  apply replaceUnion_Ok in Hrun.
  destruct Hrun as (byKind & additional & b1 & target & b2 & forString & b3 & anyType
                    & b4 & Hne & Hmembers & Htarget & Hstring & Hboth & Hany & -> & ->).
  pose proof Hmembers as Hloop.
  apply mapMapEntries_members in Hmembers.
  destruct Hmembers as (rs & Hrs & HbyKind & Hadd & Hat).
  pose proof (MembersHandled_extends _ _ _ _ _ Hc Hrs) as Hext1.
  apply transformerForString_Ok in Hstring. destruct Hstring as [HaddS Hbranch].
  apply getOrAddType_None_Ok in Hany. destruct Hany as [Hlany HaddA].
  exists byKind, additional, b1, rs, target, forString, anyType. cbn zeta.
  assert (Hext2 : extends b1 b2 /\
                  (forall i e, lookupType b2 i = Some e ->
                     lookupType b1 i = Some e \/
                     ((1 <? length (Set_from (Map_values byKind)))%nat = true /\
                      e = mkEntry (UnionNode (Set_from (Map_values byKind))) attributes))).
  { destruct (1 <? length (Set_from (Map_values byKind)))%nat.
    - apply getOrAddType_None_Ok in Htarget. destruct Htarget as [_ (He & _ & Hn)].
      split; [exact He|]. intros i e Hi. destruct (Hn i e Hi); auto.
    - destruct Htarget as [_ ->]. split; [unfold extends; reflexivity|]. auto. }
  destruct Hext2 as [Hext2 Hnew2].
  destruct HaddS as (Hext3 & Hlost3 & Hnew3).
  destruct HaddA as (Hext4 & Hlost4 & Hnew4).
  assert (Hf4 : types b4 !! forwardingRef = Some None).
  { eapply unfilled_extends; [|exact Hf]. chain. }
  split; [reflexivity|]. split; [exact Hloop|]. split; [exact Hrs|].
  split; [exact HbyKind|]. split; [exact Hadd|].
  split.
  { intros i e Hi. apply lookupType_forward_other; [exact Hf4|].
    eapply extends_lookupType; [|exact Hi]. chain. }
  split; [apply lookupType_forward; eapply unfilled_lt; eauto|].
  split; [apply lookupType_forward_other; [exact Hf4 | exact Hlany]|].
  split.
  { eapply StringBranch_lift; [|exact Hbranch].
    intros i e Hi. apply lookupType_forward_other; [exact Hf4|].
    eapply extends_lookupType; [exact Hext4 | exact Hi]. }
  split; [exact Hboth|].
  split; [|exact Hat].
  destruct (1 <? length (Set_from (Map_values byKind)))%nat eqn:Hhu.
  - apply getOrAddType_None_Ok in Htarget. destruct Htarget as [Hlt (_ & Hlost2 & _)].
    split.
    + apply lookupType_forward_other; [exact Hf4|].
      eapply extends_lookupType; [|exact Hlt]. chain.
    + cbn. congruence.
  - destruct Htarget as [Hfirst ->]. split; [|split].
    + apply Nat.ltb_ge in Hhu. unfold iterableFirst in Hfirst.
      destruct (Set_from (Map_values byKind)) as [|x [|y l]]; cbn in *;
        [discriminate | congruence | lia].
    + cbn. rewrite Hlost4, Hlost3. reflexivity.
    + intros i e Hi. apply lookupType_forward_inv in Hi.
      destruct Hi as [-> | Hi]; [right; reflexivity|].
      destruct (Hnew4 i e Hi) as [Hi3 | ->]; [|right; reflexivity].
      destruct (Hnew3 i e Hi3) as [Hi2 | ->]; [|right; reflexivity].
      destruct (Hnew2 i e Hi2) as [Hi1 | [? _]]; [left; exact Hi1 | discriminate].
Qed.

(** Every member of the union has a handle under its kind, so a kind
    for which the union has a member has a branch. *)
Lemma branchFor_member members b rs b' haveUnion k m :
  MembersHandled members members b rs b' ->
  findMember members k = Some m ->
  exists ref,
    Map_get (recordMembers [] members rs) k = Some ref /\
    branchFor members (recordMembers [] members rs) haveUnion k =
      Some (DecodingTransformer ref (consumer haveUnion ref)).
Proof.
  intros Hrs Hm. unfold branchFor. rewrite Hm.
  apply findMember_Some in Hm. destruct Hm as [Hin <-].
  destruct (recordMembers_is_Some members rs [] m
              (MembersHandled_length _ _ _ _ _ Hrs) (or_introl Hin)) as [ref Href].
  exists ref. rewrite Href. auto.
Qed.

(** ** When [replaceUnion] returns *)

Lemma reconstituteMember_total members additional t b :
  engineContract ->
  exists r additional' b',
    reconstituteMember members additional t b = Ok ((r, additional'), b').
Proof.
  intros [Htype _]. unfold reconstituteMember.
  assert (Hrec : forall (m : Type_) (a : TypeAttributes),
             exists r a' b',
               bind (builder_reconstituteType m) (fun r => ret (r, a)) b
                 = Ok ((r, a'), b')).
  { intros m a. destruct (Htype m b) as (r & b' & Hr & _).
    exists r, a, b'. unfold bind. rewrite Hr. reflexivity. }
  destruct (isPrimitiveStringTypeKind (kind t)); [|apply Hrec].
  destruct (targetTypeKindForTransformedStringTypeKind (kind t)) as [k|]; [|apply Hrec].
  destruct (findMember members k) as [m|]; [apply Hrec|].
  unfold builder_getPrimitiveType.
  destruct (getOrAddType_fresh
              (mkEntry (PrimitiveNode k) (defaultTypeAttributes None)) b)
    as (r & b' & Hr & _).
  eexists r, _, b'. unfold bind. rewrite Hr. reflexivity.
Qed.

Lemma mapMapEntries_total members rest :
  engineContract ->
  forall result additional b,
    exists byKind additional' b',
      mapMapEntries members rest result additional b = Ok ((byKind, additional'), b').
Proof.
  intros Hc. induction rest as [|t rest IH]; intros result additional b;
    cbn [mapMapEntries].
  - eexists _, _, _. reflexivity.
  - destruct (reconstituteMember_total members additional t b Hc)
      as (r & add' & b1 & Hr).
    destruct (IH (Map_set result (kind t) r) add' b1) as (byKind & add'' & b' & Hrest).
    exists byKind, add'', b'. unfold bind. rewrite Hr. exact Hrest.
Qed.

Lemma transformerForKind_total members byKind haveUnion k b :
  (forall m, findMember members k = Some m -> is_Some (Map_get byKind k)) ->
  transformerForKind members byKind haveUnion k b
    = Ok (branchFor members byKind haveUnion k, b).
Proof.
  intros Hget. unfold transformerForKind, branchFor, memberForKind.
  destruct (findMember members k) as [m|]; [|reflexivity].
  destruct (Hget m eq_refl) as [ref Href]. rewrite Href. reflexivity.
Qed.

Lemma transformersForStringTypes_total byKind haveUnion s ts b :
  (forall t, t ∈ ts -> is_Some (Map_get byKind (kind t))) ->
  (forall t, t ∈ ts -> kind t <> "string") \/ haveUnion = true ->
  exists alts,
    transformersForStringTypes byKind haveUnion (Some s) ts b = Ok ((alts, Some s), b).
Proof.
  induction ts as [|t ts IH]; intros Hget Hplain; cbn [transformersForStringTypes].
  - eexists. reflexivity.
  - destruct IH as [alts Halts].
    { intros t' Ht'. apply Hget. right. exact Ht'. }
    { destruct Hplain as [Hplain|Hhu]; [left|right; exact Hhu].
      intros t' Ht'. apply Hplain. right. exact Ht'. }
    destruct (Hget t (list_elem_of_here _ _)) as [ref Href].
    assert (Hone : exists a,
               bind (transformerForStringType byKind haveUnion (Some s) t)
                    (fun '(o, mst) => bind (defined o) (fun x => ret (x, mst))) b
                 = Ok ((a, Some s), b)).
    { unfold transformerForStringType, memberForKind. rewrite Href.
      destruct (String.eqb (kind t) "string") eqn:Hk.
      - destruct Hplain as [Hplain | ->].
        + apply String.eqb_eq in Hk. destruct (Hplain t (list_elem_of_here _ _) Hk).
        + eexists. reflexivity.
      - destruct t; eexists; reflexivity. }
    destruct Hone as [a Ha].
    exists (a :: alts).
    unfold bind in *.
    destruct (transformerForStringType byKind haveUnion (Some s) t b)
      as [[[o mst] b1]|msg]; [|discriminate].
    destruct (defined o b1) as [[x b2]|msg]; [|discriminate].
    injection Ha as -> -> ->. rewrite Halts. reflexivity.
Qed.

Lemma transformerForString_total members byKind haveUnion b :
  (forall t, t ∈ members -> is_Some (Map_get byKind (kind t))) ->
  length (stringTypeMembers members) <= 1 \/
  (forall t, t ∈ stringTypeMembers members -> kind t <> "string") \/
  haveUnion = true ->
  exists o b', transformerForString members byKind haveUnion b = Ok (o, b').
Proof.
  intros Hget Hcond. unfold transformerForString.
  assert (Hsub : forall t, t ∈ stringTypeMembers members -> t ∈ members).
  { intros t Ht. unfold stringTypeMembers in Ht.
    apply list_elem_of_filter in Ht. tauto. }
  destruct (stringTypeMembers members) as [|t [|t' rest]] eqn:Hs; cbn [length Nat.eqb].
  - eexists _, _. reflexivity.
  - cbn. unfold bind; cbn.
    rewrite transformerForKind_total; [eauto|].
    intros m _. apply Hget. apply Hsub. left.
  - destruct (getOrAddType_fresh plainString b) as (s & b1 & Hadd & _).
    destruct (transformersForStringTypes_total byKind haveUnion s (t :: t' :: rest) b1)
      as [alts Halts].
    { intros x Hx. apply Hget. apply Hsub. exact Hx. }
    { destruct Hcond as [Hlen | [Hplain | Hhu]]; [cbn in Hlen; lia | left | right];
        assumption. }
    eexists _, _. unfold getStringType, builder_getStringType, bind.
    fold plainString. rewrite Hadd. cbn [ret]. rewrite Halts. reflexivity.
Qed.

(** [replaceUnion] returns as soon as the union has a member, not both
    a class and a map member, and, if it has several string-like
    members one of which is the plain string, more than one handle
    remains. *)
Lemma replaceUnion_returns attributes members forwardingRef debug b byKind additional b1 :
  engineContract ->
  members <> [] ->
  findMember members "class" = None \/ findMember members "map" = None ->
  mapMapEntries members members [] emptyTypeAttributes b
    = Ok ((byKind, additional), b1) ->
  length (stringTypeMembers members) <= 1 \/
  (forall t, t ∈ stringTypeMembers members -> kind t <> "string") \/
  (1 < length (Set_from (Map_values byKind)))%nat ->
  exists b', replaceUnion attributes members forwardingRef debug b
             = Ok (forwardingRef, b').
Proof.
  intros Hc Hne Hobj Hmembers Hcond.
  pose proof Hmembers as Hm.
  apply mapMapEntries_Ok in Hm. destruct Hm as (rs & Hrs & HbyKind & _).
  assert (Hget : forall t, t ∈ members -> is_Some (Map_get byKind (kind t))).
  { intros t Ht. rewrite HbyKind. apply recordMembers_is_Some; [|left; exact Ht].
    eapply MembersHandled_length; eauto. }
  assert (Hgetk : forall k m, findMember members k = Some m -> is_Some (Map_get byKind k)).
  { intros k m Hk. apply findMember_Some in Hk. destruct Hk as [Hin <-]. auto. }
  unfold replaceUnion.
  destruct members as [|m0 members'] eqn:Hmem; [contradiction|]. rewrite <- Hmem in *.
  assert (Hlen : (0 <? length members)%nat = true) by (rewrite Hmem; reflexivity).
  unfold bind at 1. rewrite Hlen. cbn [assert ret].
  unfold bind at 1. rewrite Hmembers.
  set (memberSet := Set_from (Map_values byKind)) in *.
  set (hu := (1 <? length memberSet)%nat).
  assert (Htarget : exists target b2,
             bind (if negb hu then builder_setLostTypeAttributes else ret tt)
                  (fun _ => if hu then builder_getUnionType attributes memberSet None
                            else defined (iterableFirst memberSet)) b1
               = Ok (target, b2)).
  { destruct hu; cbn [negb].
    - unfold builder_getUnionType.
      destruct (getOrAddType_fresh (mkEntry (UnionNode memberSet) attributes) b1)
        as (t & b2 & Ht & _).
      exists t, b2. unfold bind; cbn. exact Ht.
    - destruct memberSet as [|x l] eqn:Hset.
      + exfalso. destruct (Hget m0) as [ref Href]; [rewrite Hmem; left|].
        assert (Hin : ref ∈ Map_values byKind).
        { clear -Href. unfold Map_values.
          induction byKind as [|[k v] l IH]; cbn in *; [discriminate|].
          destruct (String.eqb k (kind m0)); [injection Href as ->; left|].
          right. apply IH. exact Href. }
        apply (proj2 (Set_from_spec (Map_values byKind))) in Hin.
        unfold memberSet in Hset. rewrite Hset in Hin.
        apply elem_of_nil in Hin. exact Hin.
      + exists x. eexists. reflexivity. }
  destruct Htarget as (target & b2 & Htarget).
  unfold bind at 1 in Htarget.
  destruct ((if negb hu then builder_setLostTypeAttributes else ret tt) b1)
    as [[u b1']|msg] eqn:Hlost; [|discriminate].
  unfold bind at 1. fold memberSet. fold hu. rewrite Hlost.
  unfold bind at 1. rewrite Htarget.
  destruct (transformerForString_total members byKind hu b2 Hget) as (o & b3 & Hstring).
  { destruct Hcond as [?|[?|Hhu]]; auto. right; right. apply Nat.ltb_lt. exact Hhu. }
  unfold bind at 1. rewrite Hstring.
  unfold bind at 1. rewrite transformerForKind_total by (apply Hgetk).
  unfold bind at 1. rewrite transformerForKind_total by (apply Hgetk).
  assert (Hassert :
            negb (isSome (branchFor members byKind hu "class"))
            || negb (isSome (branchFor members byKind hu "map")) = true).
  { unfold branchFor. destruct Hobj as [Hn | Hn]; rewrite Hn.
    - reflexivity.
    - apply orb_true_r. }
  unfold bind at 1. rewrite Hassert. cbn [assert ret].
  unfold builder_getPrimitiveType at 1.
  destruct (getOrAddType_fresh (mkEntry (PrimitiveNode "any") (defaultTypeAttributes None)) b3)
    as (anyT & b4 & Hany & _).
  unfold bind at 1. rewrite Hany.
  do 5 (unfold bind at 1; rewrite transformerForKind_total by (apply Hgetk)).
  unfold builder_getPrimitiveType. rewrite getOrAddType_forward.
  eexists. reflexivity.
Qed.

(** ** Fatal errors *)

Lemma not_Ok_Panic {A} (x : Result A) :
  (forall a, x <> Ok a) -> exists message, x = Panic message.
Proof. destruct x as [a|msg]; [intros Hx; destruct (Hx a eq_refl) | eauto]. Qed.

(** C8, as the code has it.  The pass aborts with an internal error,
    and returns no result, when [replaceUnion] is given a union without
    members, when [replaceUnion] is given a union with both a class
    member and a map member, and when the dispatcher is given a type
    that is neither a union, an array nor an enumeration and whose kind
    is not a primitive string kind.  The guard of the dispatcher is on
    the primitive string kinds, of which the plain string kind is one. *)
Theorem fatal_invariant_violations :
  (forall attributes forwardingRef debug b,
     replaceUnion attributes [] forwardingRef debug b
       = Panic "We can't have empty unions") /\
  (forall attributes members forwardingRef debug b classMember mapMember,
     findMember members "class" = Some classMember ->
     findMember members "map" = Some mapMember ->
     exists message,
       replaceUnion attributes members forwardingRef debug b = Panic message) /\
  (forall ctx t forwardingRef b,
     (forall attributes members, t <> UnionType attributes members) ->
     (forall attributes items, t <> ArrayType attributes items) ->
     (forall attributes cases, t <> EnumType attributes cases) ->
     isPrimitiveStringTypeKind (kind t) = false ->
     replace ctx [t] forwardingRef b
       = Panic ("Cannot make transformation for type " ++ kind t)).
Proof.
  split; [|split].
  - reflexivity.
  - intros attributes members forwardingRef debug b classMember mapMember Hclass Hmap.
    apply not_Ok_Panic. intros [r b'] Hrun.
    apply replaceUnion_Ok in Hrun.
    destruct Hrun as (byKind & additional & b1 & target & b2 & forString & b3 & anyType
                      & b4 & _ & Hmembers & _ & _ & Hboth & _).
    apply mapMapEntries_Ok in Hmembers. destruct Hmembers as (rs & Hrs & -> & _).
    destruct Hboth as [Hnone|Hnone].
    + destruct (branchFor_member _ _ _ _
                  (1 <? length (Set_from (Map_values (recordMembers [] members rs))))%nat
                  _ _ Hrs Hclass) as (ref & _ & Hsome).
      congruence.
    + destruct (branchFor_member _ _ _ _
                  (1 <? length (Set_from (Map_values (recordMembers [] members rs))))%nat
                  _ _ Hrs Hmap) as (ref & _ & Hsome).
      congruence.
  - intros ctx t forwardingRef b Hu Ha He Hk.
    unfold replace, iterableFirst; cbn [head]. unfold bind; cbn [defined ret].
    destruct t; try rewrite Hk; try reflexivity.
    + destruct (Ha _ _ eq_refl).
    + destruct (He _ _ eq_refl).
    + destruct (Hu _ _ eq_refl).
Qed.

(** ** Union collapse *)

(** C2.  The reconstituted members are deduplicated by handle.  Either
    exactly one distinct handle remains: then that member is the target
    of the transformation, no union type is added to the graph, and the
    lost-attributes flag is raised.  Or more than one remains: then the
    target is a union over the deduplicated member set with the
    attributes of the union, and the flag is as the reconstitution of
    the members left it. *)
Theorem replaceUnion_collapses_iff_single_handle
    (attributes : TypeAttributes) (members : list Type_) (forwardingRef : TypeRef)
    (debug : bool) (b : Builder) (r : TypeRef) (b' : Builder) :
  engineContract ->
  types b !! forwardingRef = Some None ->
  replaceUnion attributes members forwardingRef debug b = Ok (r, b') ->
  exists rs b1 target transformer,
    let byKind := recordMembers [] members rs in
    let memberSet := Set_from (Map_values byKind) in
    MembersHandled members members b rs b1 /\
    NoDup memberSet /\
    (forall x, x ∈ memberSet <-> x ∈ Map_values byKind) /\
    lookupType b' r =
      Some (anyEntry
              (combineTypeAttributes "union"
                 (makeAttributes (mkTransformation target transformer))
                 (lostMemberAttributes members emptyTypeAttributes))) /\
    ((memberSet = [target] /\
      lostTypeAttributes b' = true /\
      forall i e, lookupType b' i = Some e ->
                  lookupType b1 i = Some e \/ isUnionNode e = false)
     \/
     ((1 < length memberSet)%nat /\
      lookupType b' target = Some (mkEntry (UnionNode memberSet) attributes) /\
      lostTypeAttributes b' = lostTypeAttributes b1)).
Proof.
  intros Hc Hf Hrun.
  destruct (replaceUnion_view _ _ _ _ _ _ _ Hc Hf Hrun)
    as (rs & b1 & target & forString & anyType & -> & _ & Hrs & Hl & _ & _ & _ & Hcase).
  cbn zeta in *. exists rs, b1, target. eexists.
  split; [exact Hrs|].
  destruct (Set_from_spec (Map_values (recordMembers [] members rs))) as [Hnd Hin].
  split; [exact Hnd|]. split; [exact Hin|]. split; [exact Hl|].
  destruct (1 <? length (Set_from (Map_values (recordMembers [] members rs))))%nat eqn:Hhu.
  - right. apply Nat.ltb_lt in Hhu. tauto.
  - left. exact Hcase.
Qed.

(** ** The string branch *)

(** C4.  The string branch of the decoder of the union, built from the
    map [byKind] that the loop over the members computed, is one of
    three: absent, if the union has no string-like member; the
    transformer of the one string-like member, which is the [Decode] of
    the handle recorded for its kind with the consumer of that handle,
    if there is exactly one; and, if there are more, a [Decode] of the
    plain string type that continues into a [Choice] with one
    alternative for each string-like member, as [Alternative] says. *)
Theorem replaceUnion_string_branch
    (attributes : TypeAttributes) (members : list Type_) (forwardingRef : TypeRef)
    (debug : bool) (b : Builder) (r : TypeRef) (b' : Builder) :
  engineContract ->
  types b !! forwardingRef = Some None ->
  replaceUnion attributes members forwardingRef debug b = Ok (r, b') ->
  exists byKind additional b1 target anyType forNull forInteger forDouble forBool
         forString forArray forObject,
    let haveUnion := (1 <? length (Set_from (Map_values byKind)))%nat in
    mapMapEntries members members [] emptyTypeAttributes b
      = Ok ((byKind, additional), b1) /\
    lookupType b' r =
      Some (anyEntry
              (combineTypeAttributes "union"
                 (makeAttributes
                    (mkTransformation target
                       (DecodingChoiceTransformer anyType forNull forInteger
                          forDouble forBool forString forArray forObject)))
                 additional)) /\
    ((stringTypeMembers members = [] /\ forString = None)
     \/
     (exists t ref,
        stringTypeMembers members = [t] /\
        Map_get byKind (kind t) = Some ref /\
        forString = Some (DecodingTransformer ref (consumer haveUnion ref)) /\
        forString = branchFor members byKind haveUnion (kind t))
     \/
     (exists stringType alternatives,
        (1 < length (stringTypeMembers members))%nat /\
        lookupType b' stringType = Some plainString /\
        Forall2 (Alternative byKind haveUnion stringType)
          (stringTypeMembers members) alternatives /\
        forString =
          Some (DecodingTransformer stringType
                  (Some (ChoiceTransformer stringType alternatives))))).
Proof.
  intros Hc Hf Hrun.
  destruct (replaceUnion_run _ _ _ _ _ _ _ Hc Hf Hrun)
    as (byKind & additional & b1 & rs & target & forString & anyType & -> & Hloop & _ & _
        & _ & _ & Hl & _ & Hbranch & _).
  cbn zeta in *. exists byKind, additional, b1, target, anyType.
  unfold unionDecoder in Hl. do 4 eexists. exists forString. do 2 eexists.
  split; [exact Hloop|]. split; [exact Hl|].
  destruct Hbranch as [Hs | t ref Hs Hg | s alts Hlen Hls HF].
  - left. auto.
  - right; left. exists t, ref. split; [exact Hs|]. split; [exact Hg|].
    split; [reflexivity|].
    unfold branchFor. destruct (findMember_stringType _ _ _ Hs) as [m Hm].
    rewrite Hm, Hg. reflexivity.
  - right; right. exists s, alts. auto.
Qed.

(** ** Redirected members *)

(** C5.  The loop over the members handles them one after the other:
    in the state the loop has reached, a member of a transformed-string
    kind with a target kind gets the handle that the reconstitution of
    the member of the target kind returns, if the union has one, and
    the handle of a primitive of the target kind otherwise, which is in
    the result; every other member is reconstituted as it is.  The handle of the last member of a kind is
    the one recorded for the kind, it is in the member set, and it is
    the one that the decoder and the target of the transformation are
    built from.  The attributes of the redirected members, merged in
    order, are what the loop returns, and they are merged onto the
    attributes of the ["any"] type that replaces the union. *)
Theorem replaceUnion_redirects_transformed_strings
    (attributes : TypeAttributes) (members : list Type_) (forwardingRef : TypeRef)
    (debug : bool) (b : Builder) (r : TypeRef) (b' : Builder) :
  engineContract ->
  types b !! forwardingRef = Some None ->
  replaceUnion attributes members forwardingRef debug b = Ok (r, b') ->
  exists byKind additional b1 rs target anyType forString,
    let memberSet := Set_from (Map_values byKind) in
    let haveUnion := (1 <? length memberSet)%nat in
    mapMapEntries members members [] emptyTypeAttributes b
      = Ok ((byKind, additional), b1) /\
    MembersHandled members members b rs b1 /\
    length rs = length members /\
    byKind = recordMembers [] members rs /\
    additional = lostMemberAttributes members emptyTypeAttributes /\
    keepsTypes b1 b' /\
    lookupType b' r =
      Some (anyEntry
              (combineTypeAttributes "union"
                 (makeAttributes
                    (mkTransformation target
                       (unionDecoder members byKind haveUnion anyType forString)))
                 additional)) /\
    (if haveUnion
     then lookupType b' target = Some (mkEntry (UnionNode memberSet) attributes)
     else memberSet = [target]) /\
    forall i t x,
      members !! i = Some t -> rs !! i = Some x ->
      (exists byKind_i additional_i bi bi',
         mapMapEntries members (take i members) [] emptyTypeAttributes b
           = Ok ((byKind_i, additional_i), bi) /\
         match redirected t with
         | Some k =>
             match findMember members k with
             | Some m => builder_reconstituteType m bi = Ok (x, bi')
             | None => builder_getPrimitiveType k None None bi = Ok (x, bi')
             end
         | None => builder_reconstituteType t bi = Ok (x, bi')
         end /\
         MemberHandle members t bi x bi' /\
         keepsTypes bi' b') /\
      (forall k, redirected t = Some k -> findMember members k = None ->
         lookupType b' x = Some (mkEntry (PrimitiveNode k) emptyTypeAttributes)) /\
      ((forall j t', i < j -> members !! j = Some t' -> kind t' <> kind t) ->
       Map_get byKind (kind t) = Some x /\ x ∈ memberSet).
Proof.
  intros Hc Hf Hrun.
  destruct (replaceUnion_run _ _ _ _ _ _ _ Hc Hf Hrun)
    as (byKind & additional & b1 & rs & target & forString & anyType & -> & Hloop & Hrs
        & HbyKind & Hadd & Hkeep & Hl & _ & _ & _ & Htarget & Hcalls).
  cbn zeta in *. exists byKind, additional, b1, rs, target, anyType, forString.
  pose proof (MembersHandled_length _ _ _ _ _ Hrs) as Hlen.
  split; [exact Hloop|]. split; [exact Hrs|]. split; [exact Hlen|].
  split; [exact HbyKind|]. split; [exact Hadd|]. split; [exact Hkeep|].
  split; [exact Hl|].
  split.
  { destruct (1 <? length (Set_from (Map_values byKind)))%nat; tauto. }
  intros i t x Ht Hx.
  destruct (Hcalls i t x Ht Hx)
    as (byKind_i & add_i & bi & add_i' & bi' & Hbefore & Hcall & Hafter).
  pose proof (reconstituteMember_call _ _ _ _ _ _ _ Hcall) as Hexact.
  apply reconstituteMember_Ok in Hcall. destruct Hcall as [Hat _].
  pose proof (MembersHandled_extends _ _ _ _ _ Hc Hafter) as Hext.
  assert (Hkeepi : keepsTypes bi' b').
  { intros j e Hj. apply Hkeep. eapply extends_lookupType; [exact Hext | exact Hj]. }
  split; [exists byKind_i, add_i, bi, bi'; auto|]. split.
  - intros k Hred Hnone. apply Hkeepi.
    destruct Hat as [k' m Hred' Hfind _ | k' Hred' _ Hlx _ | Hred' _]; congruence.
  - intros Hlast.
    assert (Hget : Map_get byKind (kind t) = Some x).
    { rewrite HbyKind. eapply recordMembers_last; eauto. }
    split; [exact Hget|].
    apply (proj2 (Set_from_spec (Map_values byKind))).
    eapply Map_get_value; eauto.
Qed.

(** ** The order of the alternatives *)

Lemma Alternative_isPlain byKind haveUnion s t a :
  Alternative byKind haveUnion s t a ->
  isPlainStringAlternative a = String.eqb (kind t) "string".
Proof.
  intros [t0 ref Hk _ _ | att cases ref _ | t0 ref Hk _ _]; cbn.
  - rewrite Hk. reflexivity.
  - reflexivity.
  - symmetry. apply String.eqb_neq. exact Hk.
Qed.

Lemma Alternatives_isPlain byKind haveUnion s ts alts :
  Forall2 (Alternative byKind haveUnion s) ts alts ->
  map isPlainStringAlternative alts = map (fun t => String.eqb (kind t) "string") ts.
Proof.
  induction 1 as [|t a ts alts Hta _ IH]; [reflexivity|].
  cbn. rewrite IH. f_equal. eapply Alternative_isPlain; eauto.
Qed.

(** C9, as the code has it.  In the combined string branch the
    alternatives stand in the iteration order of the string-like
    members of the union: the alternative at a position is the
    plain-string alternative exactly if the member at that position is
    the plain string. *)
Theorem replaceUnion_alternatives_in_member_order
    (attributes : TypeAttributes) (members : list Type_) (forwardingRef : TypeRef)
    (debug : bool) (b : Builder) (r : TypeRef) (b' : Builder) :
  engineContract ->
  types b !! forwardingRef = Some None ->
  (1 < length (stringTypeMembers members))%nat ->
  replaceUnion attributes members forwardingRef debug b = Ok (r, b') ->
  exists target anyType forNull forInteger forDouble forBool stringType alternatives
         forArray forObject,
    lookupType b' r =
      Some (anyEntry
              (combineTypeAttributes "union"
                 (makeAttributes
                    (mkTransformation target
                       (DecodingChoiceTransformer anyType forNull forInteger
                          forDouble forBool
                          (Some (DecodingTransformer stringType
                                   (Some (ChoiceTransformer stringType alternatives))))
                          forArray forObject)))
                 (lostMemberAttributes members emptyTypeAttributes))) /\
    map isPlainStringAlternative alternatives =
      map (fun t => String.eqb (kind t) "string") (stringTypeMembers members).
Proof.
  intros Hc Hf Hmany Hrun.
  destruct (replaceUnion_view _ _ _ _ _ _ _ Hc Hf Hrun)
    as (rs & b1 & target & forString & anyType & -> & _ & _ & Hl & _ & Hbranch & _).
  cbn zeta in *. unfold unionDecoder in Hl.
  destruct Hbranch as [Hs | t ref Hs Hg | s alts Hlen Hls HF].
  - rewrite Hs in Hmany. cbn in Hmany. lia.
  - rewrite Hs in Hmany. cbn in Hmany. lia.
  - exists target, anyType. do 4 eexists. exists s, alts. do 2 eexists.
    split; [exact Hl|].
    eapply Alternatives_isPlain; eauto.
Qed.

(** ** Where values are tagged *)

Lemma branchFor_collapsed members byKind k :
  bareDecode (branchFor members byKind false k).
Proof.
  unfold branchFor, bareDecode.
  destruct (findMember members k), (Map_get byKind k); cbn; eauto.
Qed.

Lemma branchFor_union members byKind k :
  taggingDecode (branchFor members byKind true k).
Proof.
  unfold branchFor, taggingDecode.
  destruct (findMember members k), (Map_get byKind k); cbn; eauto.
Qed.

Lemma bareDecode_untagged c : bareDecode c -> optionHasUnionInstantiation c = false.
Proof. intros [-> | [ref ->]]; reflexivity. Qed.

Lemma makeEnumTransformer_untagged cases s :
  hasUnionInstantiation (makeEnumTransformer cases s None) = false.
Proof.
  unfold makeEnumTransformer. cbn.
  induction (Array_sort cases) as [|c l IH]; [reflexivity | exact IH].
Qed.

Lemma Alternatives_untagged byKind s ts alts :
  Forall2 (Alternative byKind false s) ts alts ->
  existsb hasUnionInstantiation alts = false.
Proof.
  induction 1 as [|t a ts alts Hta _ IH]; [reflexivity|].
  cbn. rewrite IH, orb_false_r.
  destruct Hta as [t0 ref _ _ Hhu | att cases ref _ | t0 ref _ _ _].
  - discriminate.
  - apply makeEnumTransformer_untagged.
  - reflexivity.
Qed.

Lemma StringBranch_untagged members byKind b o :
  StringBranch members byKind false b o -> optionHasUnionInstantiation o = false.
Proof.
  intros [Hs | t ref Hs Hg | s alts Hlen Hls HF]; cbn; auto.
  eapply Alternatives_untagged; eauto.
Qed.

Lemma unionDecoder_untagged members byKind b anyType forString :
  StringBranch members byKind false b forString ->
  hasUnionInstantiation (unionDecoder members byKind false anyType forString) = false.
Proof.
  intros Hs. unfold unionDecoder. cbn [hasUnionInstantiation existsb].
  pose proof (StringBranch_untagged _ _ _ _ Hs) as HS.
  unfold optionHasUnionInstantiation in HS. rewrite HS.
  destruct (branchFor_collapsed members byKind "null") as [-> | [? ->]];
    destruct (branchFor_collapsed members byKind "integer") as [-> | [? ->]];
    destruct (branchFor_collapsed members byKind "double") as [-> | [? ->]];
    destruct (branchFor_collapsed members byKind "bool") as [-> | [? ->]];
    destruct (branchFor_collapsed members byKind "array") as [-> | [? ->]];
    destruct (branchFor_collapsed members byKind "class") as [-> | [? ->]];
    destruct (branchFor_collapsed members byKind "map") as [-> | [? ->]];
    reflexivity.
Qed.

Lemma unionDecoder_tagged members byKind anyType forString k ref :
  k ∈ dispatchedKinds ->
  branchFor members byKind true k =
    Some (DecodingTransformer ref (Some (UnionInstantiationTransformer ref))) ->
  hasUnionInstantiation (unionDecoder members byKind true anyType forString) = true.
Proof.
  intros Hk Hb. unfold unionDecoder. cbn [hasUnionInstantiation].
  apply existsb_exists.
  destruct (decide (k = "map")) as [->|Hnm].
  - destruct (branchFor_union members byKind "class") as [Hc | [ref' Hc]].
    + exists (Some (DecodingTransformer ref (Some (UnionInstantiationTransformer ref)))).
      split; [|reflexivity]. rewrite Hc, Hb. cbn. tauto.
    + exists (Some (DecodingTransformer ref' (Some (UnionInstantiationTransformer ref')))).
      split; [|reflexivity]. rewrite Hc. cbn. tauto.
  - exists (Some (DecodingTransformer ref (Some (UnionInstantiationTransformer ref)))).
    split; [|reflexivity]. unfold dispatchedKinds in Hk.
    repeat (apply elem_of_cons in Hk; destruct Hk as [-> | Hk]);
      try (apply elem_of_nil in Hk; contradiction);
      try contradiction;
      rewrite Hb; cbn; tauto.
Qed.

Lemma makeEnumTransformer_tagged cases s ref :
  cases <> [] ->
  hasUnionInstantiation
    (makeEnumTransformer cases s (Some (UnionInstantiationTransformer ref))) = true.
Proof.
  intros Hne. unfold makeEnumTransformer. cbn.
  destruct (Array_sort cases) as [|c l] eqn:Hs; [|reflexivity].
  pose proof (Array_sort_perm cases) as Hp. rewrite Hs in Hp.
  apply Permutation_nil_l in Hp. congruence.
Qed.

Lemma Alternative_tagged byKind s t a :
  Alternative byKind true s t a ->
  (forall attributes, t <> EnumType attributes []) ->
  hasUnionInstantiation a = true.
Proof.
  intros [t0 ref _ _ _ | att cases ref _ | t0 ref _ _ _] Hne; cbn [consumer negb].
  - reflexivity.
  - apply makeEnumTransformer_tagged. intros ->. exact (Hne att eq_refl).
  - reflexivity.
Qed.

Lemma StringBranch_tagged members byKind b o t :
  StringBranch members byKind true b o ->
  t ∈ stringTypeMembers members ->
  (forall attributes, t <> EnumType attributes []) ->
  optionHasUnionInstantiation o = true.
Proof.
  intros [Hs | t0 ref Hs Hg | s alts Hlen Hls HF] Hin Hne.
  - rewrite Hs in Hin. apply elem_of_nil in Hin. contradiction.
  - reflexivity.
  - cbn. apply list_elem_of_lookup in Hin. destruct Hin as [i Hi].
    destruct (Forall2_lookup_l _ _ _ _ _ HF Hi) as (a & Ha & Hta).
    apply existsb_exists. exists a. split.
    + apply list_elem_of_In. eapply list_elem_of_lookup_2; eauto.
    + eapply Alternative_tagged; eauto.
Qed.

Lemma unionDecoder_tagged_string members byKind anyType forString :
  optionHasUnionInstantiation forString = true ->
  hasUnionInstantiation (unionDecoder members byKind true anyType forString) = true.
Proof.
  intros Hs. unfold unionDecoder. cbn [hasUnionInstantiation].
  apply existsb_exists. exists forString. split; [cbn; tauto | exact Hs].
Qed.

(** C10, as the code has it.  The member set is the set of the handles
    in the map that the loop over the members computed.  A
    [UnionInstantiate] occurs in the decoder of the union only if more
    than one distinct handle remains.  In that case the target is the
    union over the member set and the branch of every member kind is a
    [Decode] that continues into the [UnionInstantiate] of the member,
    so one occurs as soon as the union has a member of a kind the
    decoder dispatches on, or a string-like member other than an
    enumeration without cases.  If the union collapses, the target is
    the one handle that remains, the flag is raised, no
    [UnionInstantiate] occurs anywhere, the branch of every member kind
    is a bare [Decode], and so is the string branch if the union has at
    most one string-like member. *)
Theorem replaceUnion_tags_iff_union
    (attributes : TypeAttributes) (members : list Type_) (forwardingRef : TypeRef)
    (debug : bool) (b : Builder) (r : TypeRef) (b' : Builder) :
  engineContract ->
  types b !! forwardingRef = Some None ->
  replaceUnion attributes members forwardingRef debug b = Ok (r, b') ->
  exists byKind additional b1 target anyType forString,
    let memberSet := Set_from (Map_values byKind) in
    let haveUnion := (1 <? length memberSet)%nat in
    let transformer := unionDecoder members byKind haveUnion anyType forString in
    mapMapEntries members members [] emptyTypeAttributes b
      = Ok ((byKind, additional), b1) /\
    lookupType b' r =
      Some (anyEntry
              (combineTypeAttributes "union"
                 (makeAttributes (mkTransformation target transformer))
                 additional)) /\
    (hasUnionInstantiation transformer = true -> (1 < length memberSet)%nat) /\
    ((1 < length memberSet)%nat ->
       lookupType b' target = Some (mkEntry (UnionNode memberSet) attributes) /\
       (forall k, taggingDecode (branchFor members byKind haveUnion k)) /\
       (forall k m, k ∈ dispatchedKinds -> findMember members k = Some m ->
                    hasUnionInstantiation transformer = true) /\
       (forall t, t ∈ stringTypeMembers members ->
                  (forall a, t <> EnumType a []) ->
                  hasUnionInstantiation transformer = true)) /\
    (length memberSet = 1 ->
       memberSet = [target] /\
       lostTypeAttributes b' = true /\
       hasUnionInstantiation transformer = false /\
       (forall k, bareDecode (branchFor members byKind haveUnion k)) /\
       (length (stringTypeMembers members) <= 1 -> bareDecode forString)).
Proof.
  intros Hc Hf Hrun.
  destruct (replaceUnion_run _ _ _ _ _ _ _ Hc Hf Hrun)
    as (byKind & additional & b1 & rs & target & forString & anyType & -> & Hloop & Hrs
        & HbyKind & _ & _ & Hl & _ & Hbranch & _ & Hcase & _).
  cbn zeta in *. exists byKind, additional, b1, target, anyType, forString.
  split; [exact Hloop|]. split; [exact Hl|].
  destruct (1 <? length (Set_from (Map_values byKind)))%nat eqn:Hhu.
  - apply Nat.ltb_lt in Hhu. split; [auto|]. split; [|lia].
    intros _. split; [apply Hcase|].
    split; [intros k; apply branchFor_union|]. split.
    + intros k m Hk Hm.
      destruct (branchFor_member _ _ _ _ true _ _ Hrs Hm) as (ref & _ & Hb).
      rewrite <- HbyKind in Hb.
      eapply unionDecoder_tagged; [exact Hk | exact Hb].
    + intros t Ht Hne. apply unionDecoder_tagged_string.
      eapply StringBranch_tagged; eauto.
  - apply Nat.ltb_ge in Hhu.
    pose proof (unionDecoder_untagged _ _ _ anyType _ Hbranch) as Hun.
    split; [rewrite Hun; discriminate|]. split; [lia|].
    intros _. destruct Hcase as (Hset & Hlost & _).
    split; [exact Hset|]. split; [exact Hlost|].
    split; [exact Hun|]. split; [intros k; apply branchFor_collapsed|].
    intros Hlen. destruct Hbranch as [Hs | t ref Hs Hg | s alts Hmany Hls HF].
    + left. reflexivity.
    + right. exists ref. reflexivity.
    + lia.
Qed.

End Properties.

(** ** The order of the cases of an enumeration *)

Lemma compare_not_Gt_trans a : forall b c,
  String.compare a b <> Gt -> String.compare b c <> Gt -> String.compare a c <> Gt.
Proof.
  induction a as [|x a IH]; intros [|y b] [|z c]; cbn; try congruence.
  unfold Ascii.compare.
  destruct (N.compare_spec (N_of_ascii x) (N_of_ascii y)) as [Hxy|Hxy|Hxy];
    destruct (N.compare_spec (N_of_ascii y) (N_of_ascii z)) as [Hyz|Hyz|Hyz];
    destruct (N.compare_spec (N_of_ascii x) (N_of_ascii z)) as [Hxz|Hxz|Hxz];
    try congruence; try lia.
  apply IH.
Qed.

Lemma leb_string_compare a b : leb_string a b <-> String.compare a b <> Gt.
Proof.
  unfold leb_string, String.leb. destruct (String.compare a b); split; congruence.
Qed.

#[local] Instance leb_string_trans : Transitive leb_string.
Proof.
  intros a b c Hab Hbc. apply leb_string_compare.
  eapply compare_not_Gt_trans; apply leb_string_compare; eassumption.
Qed.

#[local] Instance leb_string_antisymm : AntiSymm eq leb_string.
Proof. intros a b Hab Hba. apply String.leb_antisym; assumption. Qed.

Lemma Array_sort_unique l l' : l ≡ₚ l' -> Array_sort l = Array_sort l'.
Proof.
  intros Hperm. apply (Sorted_unique leb_string).
  - apply Array_sort_sorted.
  - apply Array_sort_sorted.
  - rewrite !Array_sort_perm. exact Hperm.
Qed.

(** X1.  The transformer of an enumeration does not depend on the
    iteration order of the set of cases: two orders of the same cases
    give the same transformer. *)
Theorem makeEnumTransformer_order_independent
    (cases cases' : list string) (stringType : TypeRef)
    (continuation : option Transformer) :
  cases ≡ₚ cases' ->
  makeEnumTransformer cases stringType continuation
    = makeEnumTransformer cases' stringType continuation.
Proof.
  intros Hperm. unfold makeEnumTransformer.
  rewrite (Array_sort_unique _ _ Hperm). reflexivity.
Qed.

(** ** What a strategy leaves in place *)

Lemma getOrAddType_fresh_length entry b r b' :
  getOrAddType entry None b = Ok (r, b') ->
  length (types b) <= length (types b') <= length (types b) + 1.
Proof.
  unfold getOrAddType.
  destruct (list_find (fun e => e = Some entry) (types b)) as [[i x]|].
  - intros [= <- <-]. lia.
  - intros [= <- <-]. cbn. rewrite length_app. cbn. lia.
Qed.

Lemma extends_length b b' : extends b b' -> length (types b) <= length (types b').
Proof. apply prefix_length. Qed.

Lemma extends_slot_lt b b' i :
  extends b b' -> i < length (types b) -> types b' !! i = types b !! i.
Proof. intros Hext Hi. symmetry. apply prefix_lookup_lt; assumption. Qed.

(** X2.  [replaceEnum] always returns, with the forwarding handle; it
    leaves the lost-attributes flag as it is, adds at most two handles
    to the new graph, and changes no allocated slot other than the one
    of the forwarding handle. *)
Theorem replaceEnum_frame
    (attributes : TypeAttributes) (cases : list string) (forwardingRef : TypeRef)
    (debug : bool) (b : Builder) :
  exists b',
    replaceEnum attributes cases forwardingRef debug b = Ok (forwardingRef, b') /\
    lostTypeAttributes b' = lostTypeAttributes b /\
    length (types b) <= length (types b') <= length (types b) + 2 /\
    forall i, i < length (types b) -> i <> forwardingRef ->
              types b' !! i = types b !! i.
Proof.
  unfold replaceEnum, builder_getStringType, builder_getEnumType.
  destruct (getOrAddType_fresh (mkEntry (StringNode unrestricted) emptyTypeAttributes) b)
    as (s & b1 & Hs & Hext1 & _ & Hlost1 & _).
  destruct (getOrAddType_fresh (mkEntry (EnumNode cases) attributes) b1)
    as (e & b2 & He & Hext2 & _ & Hlost2 & _).
  pose proof (getOrAddType_fresh_length _ _ _ _ Hs) as Hlen1.
  pose proof (getOrAddType_fresh_length _ _ _ _ He) as Hlen2.
  eexists. split; [|split; [|split]].
  - unfold bind. rewrite Hs, He. rewrite getOrAddType_forward. reflexivity.
  - cbn. congruence.
  - cbn. rewrite length_insert. lia.
  - intros i Hi Hne. cbn. rewrite list_lookup_insert_ne by congruence.
    rewrite (extends_slot_lt b1 b2) by (exact Hext2 || lia).
    apply extends_slot_lt; assumption.
Qed.

Section Frame.

Context `{Collaborators}.

(** The last step of every strategy puts a type at the forwarding
    handle of a builder that, by the contract of the engine, extends
    the one the strategy started from. *)
Lemma replaceArray_Ok attributes items forwardingRef debug b r b' :
  replaceArray attributes items forwardingRef debug b = Ok (r, b') ->
  r = forwardingRef /\
  exists b0 entry,
    (engineContract -> extends b b0) /\
    b' = mkBuilder (<[forwardingRef := Some entry]> (types b0)) (lostTypeAttributes b0).
Proof.
  unfold replaceArray, builder_getPrimitiveType, builder_getArrayType. intros Hrun.
  inv_bind Hrun as anyType b1 Hany. apply getOrAddType_None_Ok in Hany.
  destruct Hany as [_ (Hext1 & _)].
  inv_bind Hrun as anyArrayType b2 Harr. apply getOrAddType_None_Ok in Harr.
  destruct Harr as [_ (Hext2 & _)].
  inv_bind Hrun as items' b3 Hitems.
  inv_bind Hrun as attributes' b4 Hatt.
  inv_bind Hrun as target b5 Htarget. apply getOrAddType_None_Ok in Htarget.
  destruct Htarget as [_ (Hext5 & _)].
  rewrite getOrAddType_forward in Hrun. injection Hrun as <- <-.
  split; [reflexivity|]. eexists b5, _. split; [|reflexivity].
  intros [Htype Hattrs].
  pose proof (wellBehaved_extends _ _ _ _ (Htype items) Hitems) as Hext3.
  pose proof (wellBehaved_extends _ _ _ _ (Hattrs attributes) Hatt) as Hext4.
  chain.
Qed.

Lemma replaceEnum_Ok attributes cases forwardingRef debug b r b' :
  replaceEnum attributes cases forwardingRef debug b = Ok (r, b') ->
  r = forwardingRef /\
  exists b0 entry,
    extends b b0 /\
    b' = mkBuilder (<[forwardingRef := Some entry]> (types b0)) (lostTypeAttributes b0).
Proof.
  unfold replaceEnum, builder_getStringType, builder_getEnumType. intros Hrun.
  inv_bind Hrun as stringType b1 Hs. apply getOrAddType_None_Ok in Hs.
  destruct Hs as [_ (Hext1 & _)].
  inv_bind Hrun as target b2 He. apply getOrAddType_None_Ok in He.
  destruct He as [_ (Hext2 & _)].
  rewrite getOrAddType_forward in Hrun. injection Hrun as <- <-.
  split; [reflexivity|]. eexists b2, _. split; [chain | reflexivity].
Qed.

Lemma replaceIntegerString_Ok t forwardingRef debug b r b' :
  replaceIntegerString t forwardingRef debug b = Ok (r, b') ->
  r = forwardingRef /\
  exists b0 entry,
    (engineContract -> extends b b0) /\
    b' = mkBuilder (<[forwardingRef := Some entry]> (types b0)) (lostTypeAttributes b0).
Proof.
  unfold replaceIntegerString, builder_getStringType, builder_getPrimitiveType.
  intros Hrun.
  inv_bind Hrun as stringType b1 Hs. apply getOrAddType_None_Ok in Hs.
  destruct Hs as [_ (Hext1 & _)].
  inv_bind Hrun as attributes' b2 Hatt.
  inv_bind Hrun as target b3 Htarget. apply getOrAddType_None_Ok in Htarget.
  destruct Htarget as [_ (Hext3 & _)].
  rewrite getOrAddType_forward in Hrun. injection Hrun as <- <-.
  split; [reflexivity|]. eexists b3, _. split; [|reflexivity].
  intros [_ Hattrs].
  pose proof (wellBehaved_extends _ _ _ _ (Hattrs (getAttributes t)) Hatt) as Hext2.
  chain.
Qed.

(** A successful run of [replaceUnion], step by step: the members are
    handled from [b] to [b1], the other types are added up to [b4], and
    the replacement is put at the forwarding handle of [b4]. *)
Lemma replaceUnion_frame attributes members forwardingRef debug b r b' :
  engineContract ->
  replaceUnion attributes members forwardingRef debug b = Ok (r, b') ->
  exists rs b1 target forString anyType b4,
    let byKind := recordMembers [] members rs in
    let memberSet := Set_from (Map_values byKind) in
    let haveUnion := (1 <? length memberSet)%nat in
    r = forwardingRef /\
    members <> [] /\
    MembersHandled members members b rs b1 /\
    extends b b1 /\
    extends b1 b4 /\
    StringBranch members byKind haveUnion b4 forString /\
    (branchFor members byKind haveUnion "class" = None \/
     branchFor members byKind haveUnion "map" = None) /\
    (if haveUnion
     then lookupType b4 target = Some (mkEntry (UnionNode memberSet) attributes)
     else iterableFirst memberSet = Some target /\ lostTypeAttributes b4 = true) /\
    b' = mkBuilder
           (<[forwardingRef :=
                Some (anyEntry
                        (combineTypeAttributes "union"
                           (makeAttributes
                              (mkTransformation target
                                 (unionDecoder members byKind haveUnion anyType forString)))
                           (lostMemberAttributes members emptyTypeAttributes)))]>
              (types b4))
           (lostTypeAttributes b4).
Proof.
  intros Hc Hrun.
  apply replaceUnion_Ok in Hrun.
  destruct Hrun as (byKind & additional & b1 & target & b2 & forString & b3 & anyType
                    & b4 & Hne & Hmembers & Htarget & Hstring & Hboth & Hany & -> & ->).
  apply mapMapEntries_Ok in Hmembers. destruct Hmembers as (rs & Hrs & -> & ->).
  pose proof (MembersHandled_extends _ _ _ _ _ Hc Hrs) as Hext1.
  apply transformerForString_Ok in Hstring.
  destruct Hstring as [(Hext3 & Hlost3 & _) Hbranch].
  apply getOrAddType_None_Ok in Hany. destruct Hany as [_ (Hext4 & Hlost4 & _)].
  exists rs, b1, target, forString, anyType, b4. cbn zeta.
  set (byKind := recordMembers [] members rs) in *.
  assert (Hext2 : extends b1 b2).
  { destruct (1 <? length (Set_from (Map_values byKind)))%nat.
    - apply getOrAddType_None_Ok in Htarget. apply Htarget.
    - destruct Htarget as [_ ->]. unfold extends; reflexivity. }
  split; [reflexivity|]. split; [exact Hne|]. split; [exact Hrs|].
  split; [exact Hext1|]. split; [chain|].
  split.
  { eapply StringBranch_lift; [|exact Hbranch].
    intros i e Hi. eapply extends_lookupType; [exact Hext4 | exact Hi]. }
  split; [exact Hboth|].
  split; [|reflexivity].
  destruct (1 <? length (Set_from (Map_values byKind)))%nat.
  - apply getOrAddType_None_Ok in Htarget. destruct Htarget as [Hl _].
    eapply extends_lookupType; [|exact Hl]. chain.
  - destruct Htarget as [Hfirst ->]. split; [exact Hfirst|].
    rewrite Hlost4, Hlost3. reflexivity.
Qed.

Lemma forward_keepsTypes b0 f entry :
  types b0 !! f = Some None ->
  keepsTypes b0
    (mkBuilder (<[f := Some entry]> (types b0)) (lostTypeAttributes b0)).
Proof. intros Hf i e Hi. apply lookupType_forward_other; assumption. Qed.

Lemma extends_keepsTypes b b' : extends b b' -> keepsTypes b b'.
Proof. intros Hext i e Hi. eapply extends_lookupType; eauto. Qed.

Lemma keepsTypes_trans b1 b2 b3 :
  keepsTypes b1 b2 -> keepsTypes b2 b3 -> keepsTypes b1 b3.
Proof. intros H12 H23 i e Hi. apply H23, H12, Hi. Qed.

Lemma replace_shape ctx setOfOneUnion forwardingRef b r b' :
  engineContract ->
  replace ctx setOfOneUnion forwardingRef b = Ok (r, b') ->
  exists b0 entry,
    extends b b0 /\
    b' = mkBuilder (<[forwardingRef := Some entry]> (types b0)) (lostTypeAttributes b0).
Proof.
  unfold replace. intros Hc Hrun. inv_bind Hrun as t b0 Ht. inv_ret Ht.
  assert (Hstring :
            replaceIntegerString t forwardingRef (debugPrintReconstitution ctx) b
              = Ok (r, b') ->
            exists b0 entry,
              extends b b0 /\
              b' = mkBuilder (<[forwardingRef := Some entry]> (types b0))
                     (lostTypeAttributes b0)).
  { intros Hs. apply replaceIntegerString_Ok in Hs.
    destruct Hs as (_ & b0 & entry & Hext & ->). exists b0, entry. auto. }
  destruct t as [k a | a items | a cases | a members | k a | a members];
    try (destruct (isPrimitiveStringTypeKind _); [auto | discriminate]).
  - apply replaceArray_Ok in Hrun.
    destruct Hrun as (_ & b0 & entry & Hext & ->). exists b0, entry. auto.
  - apply replaceEnum_Ok in Hrun.
    destruct Hrun as (_ & b0 & entry & Hext & ->). exists b0, entry. auto.
  - destruct (replaceUnion_frame _ _ _ _ _ _ _ Hc Hrun)
      as (rs & b1 & target & forString & anyType & b4 & _ & _ & _ & He1 & He4 & _
          & _ & _ & Hb').
    cbn zeta in Hb'. eexists b4, _. split; [chain | exact Hb'].
Qed.

(** X3.  Whenever the dispatcher returns, it returns the forwarding
    handle it was given, whichever strategy it chose. *)
Theorem replace_returns_forwardingRef
    (ctx : RunContext) (setOfOneUnion : list Type_) (forwardingRef : TypeRef)
    (b : Builder) (r : TypeRef) (b' : Builder) :
  replace ctx setOfOneUnion forwardingRef b = Ok (r, b') ->
  r = forwardingRef.
Proof.
  unfold replace. intros Hrun. inv_bind Hrun as t b0 Ht. inv_ret Ht.
  destruct t as [k a | a items | a cases | a members | k a | a members];
    try (destruct (isPrimitiveStringTypeKind _); [|discriminate];
         apply replaceIntegerString_Ok in Hrun; tauto).
  - apply replaceArray_Ok in Hrun. tauto.
  - apply replaceEnum_Ok in Hrun. tauto.
  - apply replaceUnion_Ok in Hrun.
    destruct Hrun as (byKind & additional & b1 & target & b2 & forString & b3 & anyType
                      & b4 & _ & _ & _ & _ & _ & _ & -> & _).
    reflexivity.
Qed.

(** X4.  Under the contract of the engine, a replacement that returns
    keeps every type that was in the new graph, fills the forwarding
    handle, which was unfilled, and leaves every other handle that is
    still unfilled as it is. *)
Theorem replace_keeps_types
    (ctx : RunContext) (setOfOneUnion : list Type_) (forwardingRef : TypeRef)
    (b : Builder) (r : TypeRef) (b' : Builder) :
  engineContract ->
  types b !! forwardingRef = Some None ->
  replace ctx setOfOneUnion forwardingRef b = Ok (r, b') ->
  keepsTypes b b' /\
  is_Some (lookupType b' forwardingRef) /\
  length (types b) <= length (types b') /\
  forall f, f <> forwardingRef -> types b !! f = Some None ->
            types b' !! f = Some None.
Proof.
  intros Hc Hf Hrun.
  destruct (replace_shape _ _ _ _ _ _ Hc Hrun) as (b0 & entry & Hext & ->).
  pose proof (unfilled_extends _ _ _ Hext Hf) as Hf0.
  split; [|split; [|split]].
  - eapply keepsTypes_trans; [apply extends_keepsTypes; exact Hext|].
    apply forward_keepsTypes. exact Hf0.
  - rewrite lookupType_forward by (eapply unfilled_lt; eauto). eauto.
  - cbn. rewrite length_insert. apply extends_length. exact Hext.
  - intros f Hne Hunfilled. cbn. rewrite list_lookup_insert_ne by congruence.
    eapply unfilled_extends; eauto.
Qed.

End Frame.

(** ** When a union is replaced, and when the pass aborts on it *)

Section UnionRuns.

Context `{Collaborators}.

(** X5.  Under the contract of the engine, a union is replaced, and
    the forwarding handle returned, as soon as it has a member, not
    both a class and a map member, and either at most one string-like
    member or no plain string among its string-like members. *)
Theorem replaceUnion_total
    (attributes : TypeAttributes) (members : list Type_) (forwardingRef : TypeRef)
    (debug : bool) (b : Builder) :
  engineContract ->
  members <> [] ->
  findMember members "class" = None \/ findMember members "map" = None ->
  length (stringTypeMembers members) <= 1 \/
  (forall t, t ∈ stringTypeMembers members -> kind t <> "string") ->
  exists b', replaceUnion attributes members forwardingRef debug b
             = Ok (forwardingRef, b').
Proof.
  intros Hc Hne Hobj Hcond.
  destruct (mapMapEntries_total members members Hc [] emptyTypeAttributes b)
    as (byKind & additional & b1 & Hmembers).
  eapply replaceUnion_returns; eauto. tauto.
Qed.

Lemma getStringType_returns maybeStringType b :
  exists s m b', getStringType maybeStringType b = Ok ((s, m), b').
Proof.
  unfold getStringType, builder_getStringType. destruct maybeStringType as [s|].
  - eexists _, _, _. reflexivity.
  - destruct (getOrAddType_fresh (mkEntry (StringNode unrestricted) emptyTypeAttributes) b)
      as (s & b' & Hs & _).
    eexists _, _, _. unfold bind. rewrite Hs. reflexivity.
Qed.

(** The alternative of a string-like member: the only failure is a
    missing handle, and without a union the plain string has no
    alternative. *)
Lemma transformerForStringType_cases byKind maybeStringType t b :
  transformerForStringType byKind false maybeStringType t b
    = Panic "Defined value expected, but got undefined" \/
  exists o m b',
    transformerForStringType byKind false maybeStringType t b = Ok ((o, m), b') /\
    (kind t = "string" -> o = None).
Proof.
  unfold transformerForStringType, memberForKind.
  destruct (Map_get byKind (kind t)) as [ref|]; [right | left; reflexivity].
  unfold bind at 1. cbn [defined ret].
  destruct (String.eqb (kind t) "string") eqn:Hk.
  - eexists _, _, _. split; [reflexivity|]. reflexivity.
  - apply String.eqb_neq in Hk.
    destruct (getStringType_returns maybeStringType b) as (s & m & b' & Hs).
    destruct t; unfold bind; rewrite Hs; eexists _, _, _;
      (split; [reflexivity | intros Hk'; destruct (Hk Hk')]).
Qed.

Lemma transformersForStringTypes_collapsed_plain byKind ts :
  forall maybeStringType b,
    (exists t, t ∈ ts /\ kind t = "string") ->
    transformersForStringTypes byKind false maybeStringType ts b
      = Panic "Defined value expected, but got undefined".
Proof.
  induction ts as [|t0 ts IH]; intros mst b (t & Hin & Hk).
  - apply elem_of_nil in Hin. destruct Hin.
  - cbn [transformersForStringTypes]. unfold bind at 1.
    destruct (transformerForStringType_cases byKind mst t0 b)
      as [Hpanic | (o & m & b' & Hok & Hplain)].
    + rewrite Hpanic. reflexivity.
    + rewrite Hok. unfold bind at 1.
      destruct o as [x|]; cbn [defined ret panic]; [|reflexivity].
      apply elem_of_cons in Hin. destruct Hin as [-> | Hin].
      * specialize (Hplain Hk). discriminate.
      * unfold bind at 1. rewrite IH by eauto. reflexivity.
Qed.

(** X6.  When the members of a union collapse to a single handle and
    the union has several string-like members one of which is the
    plain string, the pass aborts: the plain string has no alternative
    to offer to the choice of the string branch. *)
Theorem replaceUnion_collapsed_plain_string_aborts
    (attributes : TypeAttributes) (members : list Type_) (forwardingRef : TypeRef)
    (debug : bool) (b : Builder) (byKind : KindMap) (additional : TypeAttributes)
    (b1 : Builder) :
  mapMapEntries members members [] emptyTypeAttributes b
    = Ok ((byKind, additional), b1) ->
  length (Set_from (Map_values byKind)) <= 1 ->
  1 < length (stringTypeMembers members) ->
  (exists t, t ∈ stringTypeMembers members /\ kind t = "string") ->
  replaceUnion attributes members forwardingRef debug b
    = Panic "Defined value expected, but got undefined".
Proof.
  intros Hmembers Hone Hseveral Hplain.
  assert (Hne : (0 <? length members)%nat = true).
  { destruct members as [|m members']; [cbn in Hseveral; lia | reflexivity]. }
  assert (Hhu : (1 <? length (Set_from (Map_values byKind)))%nat = false)
    by (apply Nat.ltb_ge; lia).
  unfold replaceUnion.
  unfold bind at 1. rewrite Hne. cbn [assert ret].
  unfold bind at 1. rewrite Hmembers. rewrite Hhu. cbn [negb].
  unfold bind at 1. cbn [builder_setLostTypeAttributes].
  unfold bind at 1.
  destruct (iterableFirst (Set_from (Map_values byKind))) as [target|];
    cbn [defined ret panic]; [|reflexivity].
  unfold bind at 1.
  assert (Hstring :
            forall b2, transformerForString members byKind false b2
                       = Panic "Defined value expected, but got undefined").
  { intros b2. unfold transformerForString.
    destruct (length (stringTypeMembers members)) as [|[|n]] eqn:Hlen; [lia | lia |].
    cbn [Nat.eqb].
    destruct (getStringType_returns None b2) as (s1 & m1 & b3 & Hs1).
    unfold bind at 1. rewrite Hs1.
    destruct (getStringType_returns m1 b3) as (s2 & m2 & b4 & Hs2).
    unfold bind at 1. rewrite Hs2.
    unfold bind at 1.
    rewrite transformersForStringTypes_collapsed_plain by exact Hplain.
    reflexivity. }
  rewrite Hstring. reflexivity.
Qed.

(** X7.  When a union collapses, its own attributes are not used: the
    replacement is the same whatever they are. *)
Theorem replaceUnion_collapse_ignores_attributes
    (attributes attributes' : TypeAttributes) (members : list Type_)
    (forwardingRef : TypeRef) (debug : bool) (b : Builder) (byKind : KindMap)
    (additional : TypeAttributes) (b1 : Builder) :
  mapMapEntries members members [] emptyTypeAttributes b
    = Ok ((byKind, additional), b1) ->
  length (Set_from (Map_values byKind)) <= 1 ->
  replaceUnion attributes members forwardingRef debug b
    = replaceUnion attributes' members forwardingRef debug b.
Proof.
  intros Hmembers Hone.
  assert (Hhu : (1 <? length (Set_from (Map_values byKind)))%nat = false)
    by (apply Nat.ltb_ge; lia).
  unfold replaceUnion, bind.
  destruct (assert (0 <? length members)%nat "We can't have empty unions" b)
    as [[u b0]|msg] eqn:Ha; [|reflexivity].
  apply assert_Ok in Ha. destruct Ha as [_ ->].
  rewrite Hmembers. rewrite Hhu. reflexivity.
Qed.

End UnionRuns.

(** ** The map of the members and the member set *)

Lemma Map_set_keys m k v :
  map fst (Map_set m k v) =
    if decide (k ∈ map fst m) then map fst m else (map fst m ++ [k])%list.
Proof.
  induction m as [|[k' v'] m IH]; cbn.
  - destruct (decide (k ∈ [])) as [Hin|_]; [|reflexivity].
    apply elem_of_nil in Hin. destruct Hin.
  - destruct (String.eqb k' k) eqn:E; cbn.
    + apply String.eqb_eq in E. subst k'.
      destruct (decide (k ∈ k :: map fst m)) as [_|Hn]; [reflexivity|].
      destruct Hn. left.
    + apply String.eqb_neq in E. rewrite IH.
      destruct (decide (k ∈ map fst m)) as [Hin|Hnin];
        destruct (decide (k ∈ k' :: map fst m)) as [Hin'|Hnin']; try reflexivity.
      * destruct Hnin'. right. exact Hin.
      * apply elem_of_cons in Hin'. destruct Hin' as [->|Hin']; contradiction.
Qed.

Lemma Map_set_keys_spec m k v :
  NoDup (map fst m) ->
  NoDup (map fst (Map_set m k v)) /\
  (forall k', k' ∈ map fst (Map_set m k v) <-> k' ∈ map fst m \/ k' = k) /\
  length (Map_set m k v) <= length m + 1.
Proof.
  intros Hnd.
  assert (Hlen : length (Map_set m k v) = length (map fst (Map_set m k v)))
    by (rewrite length_map; reflexivity).
  rewrite Hlen, Map_set_keys.
  destruct (decide (k ∈ map fst m)) as [Hin|Hnin].
  - split; [exact Hnd|]. split.
    + intros k'. split; [auto|]. intros [Hk' | ->]; assumption.
    + rewrite length_map. lia.
  - split; [|split].
    + apply NoDup_app. split; [exact Hnd|]. split; [|apply NoDup_singleton].
      intros x Hx Hxk. apply list_elem_of_singleton in Hxk. subst. contradiction.
    + intros k'. rewrite elem_of_app, list_elem_of_singleton. reflexivity.
    + rewrite length_app, length_map. cbn. lia.
Qed.

Lemma recordMembers_keys ts :
  forall rs result,
    length rs = length ts ->
    NoDup (map fst result) ->
    NoDup (map fst (recordMembers result ts rs)) /\
    (forall k, k ∈ map fst (recordMembers result ts rs) <->
               k ∈ map fst result \/ exists t, t ∈ ts /\ kind t = k) /\
    length (recordMembers result ts rs) <= length result + length ts.
Proof.
  induction ts as [|t ts IH]; intros rs result Hlen Hnd.
  - destruct rs; [|discriminate]. cbn. split; [exact Hnd|]. split; [|lia].
    intros k. split; [auto|]. intros [Hk | (t & Ht & _)]; [exact Hk|].
    apply elem_of_nil in Ht. destruct Ht.
  - destruct rs as [|r rs]; [discriminate|]. cbn in Hlen.
    unfold recordMembers; cbn. fold (recordMembers (Map_set result (kind t) r) ts rs).
    destruct (Map_set_keys_spec result (kind t) r Hnd) as (Hnd1 & Hin1 & Hlen1).
    destruct (IH rs (Map_set result (kind t) r) ltac:(lia) Hnd1) as (Hnd2 & Hin2 & Hlen2).
    split; [exact Hnd2|]. split; [|lia].
    intros k. rewrite Hin2, Hin1. split.
    + intros [[Hk | ->] | (t' & Ht' & Hk)]; [auto | |].
      * right. exists t. split; [left | reflexivity].
      * right. exists t'. split; [right; exact Ht' | exact Hk].
    + intros [Hk | (t' & Ht' & Hk)]; [auto|].
      apply elem_of_cons in Ht'. destruct Ht' as [-> | Ht'].
      * left. right. symmetry. exact Hk.
      * right. eauto.
Qed.

Lemma Map_get_In m k v :
  NoDup (map fst m) -> (k, v) ∈ m -> Map_get m k = Some v.
Proof.
  induction m as [|[k' v'] m IH]; intros Hnd Hin.
  - apply elem_of_nil in Hin. destruct Hin.
  - cbn in Hnd. apply NoDup_cons in Hnd. destruct Hnd as [Hnin Hnd].
    apply elem_of_cons in Hin. cbn. destruct Hin as [[= <- <-] | Hin].
    + rewrite String.eqb_refl. reflexivity.
    + destruct (String.eqb k' k) eqn:E; [|auto].
      apply String.eqb_eq in E. subst k'. destruct Hnin.
      apply list_elem_of_fmap. exists (k, v). auto.
Qed.

Lemma Set_fold_length xs :
  forall acc, length (fold_left Set_add xs acc) <= length acc + length xs.
Proof.
  induction xs as [|x xs IH]; intros acc; cbn; [lia|].
  specialize (IH (Set_add acc x)).
  assert (length (Set_add acc x) <= length acc + 1); [|lia].
  unfold Set_add. destruct (decide (x ∈ acc)); [lia|].
  rewrite length_app. cbn. lia.
Qed.

Lemma Set_from_length xs : length (Set_from xs) <= length xs.
Proof. apply (Set_fold_length xs []). Qed.

Section Members.

Context `{Collaborators}.

(** X8.  The loop over the members records exactly one handle for
    every kind that occurs among the members: the keys of the map are
    pairwise different, they are the kinds of the members, and there
    are at most as many entries as members. *)
Theorem mapMapEntries_one_entry_per_kind
    (members rest : list Type_) (additional : TypeAttributes) (b : Builder)
    (byKind : KindMap) (additional' : TypeAttributes) (b' : Builder) :
  mapMapEntries members rest [] additional b = Ok ((byKind, additional'), b') ->
  NoDup (map fst byKind) /\
  (forall k, k ∈ map fst byKind <-> exists t, t ∈ rest /\ kind t = k) /\
  length byKind <= length rest.
Proof.
  intros Hrun. apply mapMapEntries_Ok in Hrun. destruct Hrun as (rs & Hrs & -> & _).
  destruct (recordMembers_keys rest rs [] (MembersHandled_length _ _ _ _ _ Hrs)
              (NoDup_nil_2)) as (Hnd & Hin & Hlen).
  split; [exact Hnd|]. split; [|exact Hlen].
  intros k. rewrite Hin. split; [|auto].
  intros [Hk | Hk]; [apply elem_of_nil in Hk; destruct Hk | exact Hk].
Qed.

(** X9.  The member set of a replaced union has at least one and at
    most as many handles as the union has members, and each of them is
    the handle recorded for the kind of a member; if more than one
    handle remains, the target of the transformation is the union over
    exactly this set. *)
Theorem replaceUnion_member_set_bounded
    (attributes : TypeAttributes) (members : list Type_) (forwardingRef : TypeRef)
    (debug : bool) (b : Builder) (r : TypeRef) (b' : Builder) :
  engineContract ->
  types b !! forwardingRef = Some None ->
  replaceUnion attributes members forwardingRef debug b = Ok (r, b') ->
  exists rs b1 target transformer,
    let byKind := recordMembers [] members rs in
    let memberSet := Set_from (Map_values byKind) in
    MembersHandled members members b rs b1 /\
    lookupType b' r =
      Some (anyEntry
              (combineTypeAttributes "union"
                 (makeAttributes (mkTransformation target transformer))
                 (lostMemberAttributes members emptyTypeAttributes))) /\
    1 <= length memberSet <= length members /\
    (forall x, x ∈ memberSet ->
               exists t, t ∈ members /\ Map_get byKind (kind t) = Some x) /\
    (1 < length memberSet ->
     lookupType b' target = Some (mkEntry (UnionNode memberSet) attributes)).
Proof.
  intros Hc Hf Hrun.
  destruct (replaceUnion_frame _ _ _ _ _ _ _ Hc Hrun)
    as (rs & b1 & target & forString & anyType & b4 & -> & Hne & Hrs & He1 & He4 & _
        & _ & Htarget & ->).
  cbn zeta in *. exists rs, b1, target. eexists.
  assert (Hf4 : types b4 !! forwardingRef = Some None).
  { eapply unfilled_extends; [|exact Hf]. chain. }
  pose proof (MembersHandled_length _ _ _ _ _ Hrs) as Hlen.
  destruct (recordMembers_keys members rs [] Hlen (NoDup_nil_2)) as (Hnd & Hkeys & Hlenk).
  destruct (Set_from_spec (Map_values (recordMembers [] members rs))) as [_ Hin].
  set (byKind := recordMembers [] members rs) in *.
  split; [exact Hrs|].
  split; [apply lookupType_forward; eapply unfilled_lt; eauto|].
  split; [|split].
  - split.
    + destruct members as [|m members']; [contradiction|].
      destruct (recordMembers_is_Some (m :: members') rs [] m Hlen
                  (or_introl (list_elem_of_here _ _))) as [ref Href].
      fold byKind in Href.
      assert (Hx : ref ∈ Set_from (Map_values byKind)).
      { apply Hin. unfold Map_values. clear -Href.
        induction byKind as [|[k v] l IH]; cbn in *; [discriminate|].
        destruct (String.eqb k (kind m)); [injection Href as ->; left|].
        right. apply IH. exact Href. }
      destruct (Set_from (Map_values byKind)); [apply elem_of_nil in Hx; destruct Hx|].
      cbn. lia.
    + pose proof (Set_from_length (Map_values byKind)) as Hs.
      unfold Map_values in *. rewrite length_map in Hs. cbn in Hlenk. lia.
  - intros x Hx. apply Hin in Hx. unfold Map_values in Hx.
    apply list_elem_of_fmap in Hx. destruct Hx as ([k v] & -> & Hkv). cbn.
    assert (Hk : k ∈ map fst byKind).
    { apply list_elem_of_fmap. exists (k, v). auto. }
    apply Hkeys in Hk. destruct Hk as [Hk | (t & Ht & <-)].
    + apply elem_of_nil in Hk. destruct Hk.
    + exists t. split; [exact Ht|]. apply Map_get_In; assumption.
  - intros Hseveral. apply Nat.ltb_lt in Hseveral. rewrite Hseveral in Htarget.
    apply lookupType_forward_other; assumption.
Qed.

End Members.

(** ** The branches of the decoder of a union *)

Lemma recordMembers_same_kind k ts :
  forall rs v,
    length rs = length ts ->
    (forall t, t ∈ ts -> kind t = k) ->
    recordMembers [(k, v)] ts rs = [(k, default v (last rs))].
Proof.
  induction ts as [|t ts IH]; intros rs v Hlen Hk.
  - destruct rs; [reflexivity | discriminate].
  - destruct rs as [|r rs]; [discriminate|]. cbn in Hlen.
    unfold recordMembers; cbn [zip zip_with fold_left fst snd].
    rewrite (Hk t (list_elem_of_here _ _)). cbn [Map_set].
    rewrite String.eqb_refl.
    fold (recordMembers [(k, r)] ts rs).
    rewrite IH; [|lia | intros t' Ht'; apply Hk; right; exact Ht'].
    rewrite last_cons. destruct (last rs); reflexivity.
Qed.


Section Branches.

Context `{Collaborators}.



(** X10.  A union whose members are all of one kind collapses to the
    handle of its last member: the later member overwrites the earlier
    one under their kind, so a single handle remains, which is the
    target of the transformation, and the lost-attributes flag is
    raised. *)
Theorem replaceUnion_same_kind_collapses
    (attributes : TypeAttributes) (members : list Type_) (k : TypeKind)
    (forwardingRef : TypeRef) (debug : bool) (b : Builder) (r : TypeRef)
    (b' : Builder) :
  engineContract ->
  types b !! forwardingRef = Some None ->
  (forall t, t ∈ members -> kind t = k) ->
  replaceUnion attributes members forwardingRef debug b = Ok (r, b') ->
  exists rs b1 x transformer,
    MembersHandled members members b rs b1 /\
    last rs = Some x /\
    lostTypeAttributes b' = true /\
    lookupType b' r =
      Some (anyEntry
              (combineTypeAttributes "union"
                 (makeAttributes (mkTransformation x transformer))
                 (lostMemberAttributes members emptyTypeAttributes))).
Proof.
  intros Hc Hf Hk Hrun.
  destruct (replaceUnion_frame _ _ _ _ _ _ _ Hc Hrun)
    as (rs & b1 & target & forString & anyType & b4 & -> & Hne & Hrs & He1 & He4 & _
        & _ & Htarget & ->).
  cbn zeta in *.
  assert (Hf4 : types b4 !! forwardingRef = Some None).
  { eapply unfilled_extends; [|exact Hf]. chain. }
  pose proof (MembersHandled_length _ _ _ _ _ Hrs) as Hlen.
  destruct members as [|t0 ts]; [contradiction|].
  destruct rs as [|r0 rs]; [discriminate|]. cbn in Hlen.
  assert (HbyKind : recordMembers [] (t0 :: ts) (r0 :: rs) = [(k, default r0 (last rs))]).
  { unfold recordMembers; cbn [zip zip_with fold_left fst snd Map_set].
    rewrite (Hk t0 (list_elem_of_here _ _)).
    fold (recordMembers [(k, r0)] ts rs).
    apply recordMembers_same_kind; [lia|].
    intros t' Ht'. apply Hk. right. exact Ht'. }
  rewrite HbyKind in *.
  assert (Hset : Set_from (Map_values [(k, default r0 (last rs))])
                 = [default r0 (last rs)]).
  { unfold Set_from, Map_values, Set_add; cbn.
    destruct (decide (default r0 (last rs) ∈ [])) as [Hin|_]; [|reflexivity].
    apply elem_of_nil in Hin. destruct Hin. }
  rewrite Hset in *. cbn in Htarget. destruct Htarget as [[= <-] Hlost].
  exists (r0 :: rs), b1, (default r0 (last rs)). eexists.
  split; [exact Hrs|]. split; [|split].
  - rewrite last_cons. destruct (last rs); reflexivity.
  - exact Hlost.
  - apply lookupType_forward. eapply unfilled_lt; eauto.
Qed.

(** X11.  The object branch of the decoder, built from the map
    [byKind] that the loop over the members computed: a union with a
    class member or a map member has the [Decode] of the handle
    recorded for that kind, with the consumer of that handle, as its
    object branch; a union with neither has no object branch. *)
Theorem replaceUnion_object_branch
    (attributes : TypeAttributes) (members : list Type_) (forwardingRef : TypeRef)
    (debug : bool) (b : Builder) (r : TypeRef) (b' : Builder) :
  engineContract ->
  types b !! forwardingRef = Some None ->
  replaceUnion attributes members forwardingRef debug b = Ok (r, b') ->
  exists byKind additional b1 target anyType forNull forInteger forDouble forBool
         forString forArray forObject,
    let haveUnion := (1 <? length (Set_from (Map_values byKind)))%nat in
    mapMapEntries members members [] emptyTypeAttributes b
      = Ok ((byKind, additional), b1) /\
    lookupType b' r =
      Some (anyEntry
              (combineTypeAttributes "union"
                 (makeAttributes
                    (mkTransformation target
                       (DecodingChoiceTransformer anyType forNull forInteger
                          forDouble forBool forString forArray forObject)))
                 additional)) /\
    (forall k m, k = "class" \/ k = "map" -> findMember members k = Some m ->
       exists ref,
         Map_get byKind k = Some ref /\
         forObject = Some (DecodingTransformer ref (consumer haveUnion ref))) /\
    (findMember members "class" = None -> findMember members "map" = None ->
     forObject = None).
Proof.
  intros Hc Hf Hrun.
  destruct (replaceUnion_run _ _ _ _ _ _ _ Hc Hf Hrun)
    as (byKind & additional & b1 & rs & target & forString & anyType & -> & Hloop & Hrs
        & HbyKind & _ & _ & Hl & _ & _ & Hboth & _).
  cbn zeta in *. exists byKind, additional, b1, target, anyType.
  unfold unionDecoder in Hl. do 7 eexists.
  split; [exact Hloop|]. split; [exact Hl|].
  set (hu := (1 <? length (Set_from (Map_values byKind)))%nat) in *.
  split.
  - intros k m [-> | ->] Hm.
    + destruct (branchFor_member _ _ _ _ hu _ _ Hrs Hm) as (ref & Href & Hbranch).
      rewrite <- HbyKind in Href, Hbranch.
      exists ref. split; [exact Href|]. rewrite Hbranch. reflexivity.
    + destruct (branchFor_member _ _ _ _ hu _ _ Hrs Hm) as (ref & Href & Hbranch).
      rewrite <- HbyKind in Href, Hbranch.
      exists ref. split; [exact Href|].
      destruct Hboth as [Hnone | Hnone]; [|congruence].
      rewrite Hnone. exact Hbranch.
  - intros Hclass Hmap. unfold branchFor. rewrite Hclass, Hmap. reflexivity.
Qed.


End Branches.

(** ** Redirected members, again *)

Section Redirection.

Context `{Collaborators}.



Lemma lostMemberAttributes_none members :
  forall additional,
    (forall t, t ∈ members -> redirected t = None) ->
    lostMemberAttributes members additional = additional.
Proof.
  induction members as [|t members IH]; intros additional Hnone; [reflexivity|].
  unfold lostMemberAttributes; cbn [fold_left].
  rewrite (Hnone t (list_elem_of_here _ _)).
  apply IH. intros t' Ht'. apply Hnone. right. exact Ht'.
Qed.

(** X14.  When no member of the union is redirected, nothing is merged
    onto the attributes of the replacement but the empty attributes:
    the additional attributes stay as they were initialised. *)
Theorem replaceUnion_no_redirection_no_additional_attributes
    (attributes : TypeAttributes) (members : list Type_) (forwardingRef : TypeRef)
    (debug : bool) (b : Builder) (r : TypeRef) (b' : Builder) :
  engineContract ->
  types b !! forwardingRef = Some None ->
  (forall t, t ∈ members -> redirected t = None) ->
  replaceUnion attributes members forwardingRef debug b = Ok (r, b') ->
  exists target transformer,
    lookupType b' r =
      Some (anyEntry
              (combineTypeAttributes "union"
                 (makeAttributes (mkTransformation target transformer))
                 emptyTypeAttributes)).
Proof.
  intros Hc Hf Hnone Hrun.
  destruct (replaceUnion_frame _ _ _ _ _ _ _ Hc Hrun)
    as (rs & b1 & target & forString & anyType & b4 & -> & Hne & Hrs & He1 & He4
        & _ & _ & _ & ->).
  cbn zeta in *.
  assert (Hf4 : types b4 !! forwardingRef = Some None).
  { eapply unfilled_extends; [|exact Hf]. chain. }
  exists target. eexists.
  rewrite lookupType_forward by (eapply unfilled_lt; eauto).
  rewrite (lostMemberAttributes_none members emptyTypeAttributes Hnone).
  reflexivity.
Qed.

End Redirection.

(** ** The dispatcher and the groups *)

Section Dispatcher.

Context `{Collaborators}.

Lemma replaceArray_total attributes items forwardingRef debug b :
  engineContract ->
  exists b', replaceArray attributes items forwardingRef debug b = Ok (forwardingRef, b').
Proof.
  intros [Htype Hattrs].
  unfold replaceArray, builder_getPrimitiveType, builder_getArrayType.
  destruct (getOrAddType_fresh (mkEntry (PrimitiveNode "any") emptyTypeAttributes) b)
    as (anyT & b1 & Hany & _).
  destruct (getOrAddType_fresh (mkEntry (ArrayNode anyT) emptyTypeAttributes) b1)
    as (anyArr & b2 & Harr & _).
  destruct (Htype items b2) as (items' & b3 & Hitems & _).
  destruct (Hattrs attributes b3) as (attributes' & b4 & Hatt & _).
  destruct (getOrAddType_fresh (mkEntry (ArrayNode items') attributes') b4)
    as (target & b5 & Htarget & _).
  eexists. unfold bind, defaultTypeAttributes.
  rewrite Hany, Harr, Hitems, Hatt, Htarget. rewrite getOrAddType_forward. reflexivity.
Qed.

Lemma replaceEnum_total attributes cases forwardingRef debug b :
  exists b', replaceEnum attributes cases forwardingRef debug b = Ok (forwardingRef, b').
Proof.
  unfold replaceEnum, builder_getStringType, builder_getEnumType.
  destruct (getOrAddType_fresh (mkEntry (StringNode unrestricted) emptyTypeAttributes) b)
    as (s & b1 & Hs & _).
  destruct (getOrAddType_fresh (mkEntry (EnumNode cases) attributes) b1)
    as (e & b2 & He & _).
  eexists. unfold bind. rewrite Hs, He. rewrite getOrAddType_forward. reflexivity.
Qed.

(** What [replaceIntegerString] builds, whatever the type it is given. *)
Lemma replaceIntegerString_run t forwardingRef debug b :
  engineContract ->
  types b !! forwardingRef = Some None ->
  exists stringType attributes' target b',
    replaceIntegerString t forwardingRef debug b = Ok (forwardingRef, b') /\
    lookupType b' forwardingRef =
      Some (mkEntry (StringNode unrestricted)
              (makeAttributes
                 (mkTransformation target
                    (DecodingTransformer stringType
                       (Some (ParseStringTransformer stringType None)))))) /\
    lookupType b' target = Some (mkEntry (PrimitiveNode "integer") attributes').
Proof.
  intros [_ Hattrs] Hf.
  unfold replaceIntegerString, builder_getPrimitiveType, builder_getStringType.
  destruct (getOrAddType_fresh (mkEntry (StringNode unrestricted) emptyTypeAttributes) b)
    as (s & b1 & Hs & Hext1 & _).
  destruct (Hattrs (getAttributes t) b1) as (attributes' & b2 & Hatt & Hext2).
  destruct (getOrAddType_fresh (mkEntry (PrimitiveNode "integer") attributes') b2)
    as (x & b3 & Hx & Hext3 & Hlx & _ & _).
  assert (Hf3 : types b3 !! forwardingRef = Some None).
  { eapply unfilled_extends; [|exact Hf]. chain. }
  exists s, attributes', x. eexists. split; [|split].
  - unfold bind, defaultTypeAttributes. rewrite Hs, Hatt, Hx.
    rewrite getOrAddType_forward. reflexivity.
  - apply lookupType_forward. eapply unfilled_lt; eauto.
  - apply lookupType_forward_other; [exact Hf3 | exact Hlx].
Qed.

Lemma replaceIntegerString_total t forwardingRef debug b :
  engineContract ->
  exists b', replaceIntegerString t forwardingRef debug b = Ok (forwardingRef, b').
Proof.
  intros [_ Hattrs].
  unfold replaceIntegerString, builder_getPrimitiveType, builder_getStringType.
  destruct (getOrAddType_fresh (mkEntry (StringNode unrestricted) emptyTypeAttributes) b)
    as (s & b1 & Hs & _).
  destruct (Hattrs (getAttributes t) b1) as (attributes' & b2 & Hatt & _).
  destruct (getOrAddType_fresh (mkEntry (PrimitiveNode "integer") attributes') b2)
    as (x & b3 & Hx & _).
  eexists. unfold bind, defaultTypeAttributes. rewrite Hs, Hatt, Hx.
  rewrite getOrAddType_forward. reflexivity.
Qed.

(** X15.  The last strategy of the dispatcher takes every type that is
    not a union, an array or an enumeration and whose kind is a
    primitive string kind, whatever that kind is, and gives it the
    integer type as the target of the transformation: the target kind
    of the type is not consulted. *)
Theorem replace_string_kind_targets_integer
    (ctx : RunContext) (t : Type_) (forwardingRef : TypeRef) (b : Builder) :
  engineContract ->
  (forall attributes members, t <> UnionType attributes members) ->
  (forall attributes items, t <> ArrayType attributes items) ->
  (forall attributes cases, t <> EnumType attributes cases) ->
  isPrimitiveStringTypeKind (kind t) = true ->
  types b !! forwardingRef = Some None ->
  exists stringType attributes' target b',
    replace ctx [t] forwardingRef b = Ok (forwardingRef, b') /\
    lookupType b' forwardingRef =
      Some (mkEntry (StringNode unrestricted)
              (makeAttributes
                 (mkTransformation target
                    (DecodingTransformer stringType
                       (Some (ParseStringTransformer stringType None)))))) /\
    lookupType b' target = Some (mkEntry (PrimitiveNode "integer") attributes').
Proof.
  intros Hc Hu Ha He Hk Hf.
  unfold replace, iterableFirst; cbn [head]. unfold bind at 1; cbn [defined ret].
  destruct t; try rewrite Hk; try (apply replaceIntegerString_run; assumption).
  - destruct (Ha _ _ eq_refl).
  - destruct (He _ _ eq_refl).
  - destruct (Hu _ _ eq_refl).
Qed.

(** X16.  Every replacement that [makeTransformations] asks for is
    answered: if every type of the graph that needs a transformer is
    one that a strategy answers, the dispatcher returns the forwarding
    handle on each of the groups, which are the singletons of these
    types. *)
Theorem replace_answers_every_group
    (ctx : RunContext) (needsTransformerForType : Type_ -> bool)
    (allTypesUnordered : list Type_) :
  engineContract ->
  (forall t, t ∈ allTypesUnordered -> needsTransformerForType t = true ->
             replaceable t) ->
  forall g forwardingRef b,
    g ∈ groups needsTransformerForType allTypesUnordered ->
    exists t b',
      g = [t] /\ t ∈ allTypesUnordered /\ needsTransformerForType t = true /\
      replace ctx g forwardingRef b = Ok (forwardingRef, b').
Proof.
  intros Hc Hok g forwardingRef b Hg.
  unfold groups in Hg. apply list_elem_of_fmap in Hg. destruct Hg as (t & -> & Ht).
  apply list_elem_of_In, filter_In in Ht. destruct Ht as [Hin Hneeds].
  apply list_elem_of_In in Hin.
  specialize (Hok t Hin Hneeds).
  assert (Hrun : exists b', replace ctx [t] forwardingRef b = Ok (forwardingRef, b')).
  { unfold replace, iterableFirst; cbn [head]. unfold bind at 1; cbn [defined ret].
    destruct t as [k a | a items | a cases | a members | k a | a members];
      cbn [replaceable] in Hok;
      try (rewrite Hok; apply replaceIntegerString_total; exact Hc).
    - apply replaceArray_total. exact Hc.
    - apply replaceEnum_total.
    - destruct Hok as (Hne & Hobj & Hcond).
      destruct (mapMapEntries_total members members Hc [] emptyTypeAttributes b)
        as (byKind & additional & b1 & Hmembers).
      eapply replaceUnion_returns; eauto. tauto. }
  destruct Hrun as [b' Hrun]. exists t, b'. auto.
Qed.

End Dispatcher.

(** ** The properties at concrete inputs *)

#[local] Existing Instance plain.

Lemma getOrAddType_wellBehaved entry : wellBehaved (getOrAddType entry None).
Proof.
  intros b. destruct (getOrAddType_fresh entry b) as (r & b' & Hrun & Hext & _).
  eauto.
Qed.

Lemma plain_reconstituteType_wellBehaved t : wellBehaved (plain_reconstituteType t).
Proof.
  induction t as [k a | a items IH | a cases | a members | k a | a members];
    cbn [plain_reconstituteType];
    try apply getOrAddType_wellBehaved.
  - destruct (String.eqb k "string"); apply getOrAddType_wellBehaved.
  - intros b. destruct (IH b) as (i & b1 & Hi & Hext1).
    destruct (getOrAddType_wellBehaved (mkEntry (ArrayNode i) a) b1)
      as (r & b2 & Hr & Hext2).
    exists r, b2. split; [|etransitivity; eassumption].
    unfold bind. rewrite Hi. exact Hr.
Qed.

Lemma plain_engineContract : @engineContract plain.
Proof.
  split.
  - exact plain_reconstituteType_wellBehaved.
  - intros a b. exists a, b. split; reflexivity.
Qed.

Lemma collapsedRun_Ok :
  replaceUnion (H:=plain) [] collapsingUnion 0 false builder0
    = Ok (collapsedRun.1, collapsedRun.2).
Proof. vm_compute. reflexivity. Qed.

Lemma nullableCountRun_Ok :
  replaceUnion (H:=plain) [] nullableCount 0 false builder0
    = Ok (nullableCountRun.1, nullableCountRun.2).
Proof. vm_compute. reflexivity. Qed.

Lemma stringOrEnumRun_Ok :
  replaceUnion (H:=plain) [] stringOrEnum 0 false builder0
    = Ok (stringOrEnumRun.1, stringOrEnumRun.2).
Proof. vm_compute. reflexivity. Qed.

(** The theorem at the enumeration with the cases Red and Blue. *)
Lemma replaceEnum_string_with_case_matcher_witness :
  exists stringType target sortedCases b',
    replaceEnum [] ["Red"; "Blue"] 0 false builder0 = Ok (0, b') /\
    lookupType b' 0 =
      Some (mkEntry (StringNode unrestricted)
              (makeAttributes
                 (mkTransformation target (enumDecoder stringType sortedCases)))) /\
    lookupType b' stringType =
      Some (mkEntry (StringNode unrestricted) emptyTypeAttributes) /\
    lookupType b' target = Some (mkEntry (EnumNode ["Red"; "Blue"]) []) /\
    Sorted leb_string sortedCases /\
    sortedCases ≡ₚ ["Red"; "Blue"].
Proof.
  apply (replaceEnum_string_with_case_matcher [] ["Red"; "Blue"] 0 false builder0).
  reflexivity.
Defined.

Example replaceEnum_red_blue :
  exists b',
    replaceEnum [] ["Red"; "Blue"] 0 false builder0 = Ok (0, b') /\
    lookupType b' 0 =
      Some (mkEntry (StringNode unrestricted)
              (makeAttributes (mkTransformation 2 (enumDecoder 1 ["Blue"; "Red"])))).
Proof. eexists. split; [vm_compute; reflexivity | reflexivity]. Qed.





Lemma replaceUnion_collapses_iff_single_handle_witness :
  exists rs b1 target transformer,
    let byKind := recordMembers [] collapsingUnion rs in
    let memberSet := Set_from (Map_values byKind) in
    MembersHandled collapsingUnion collapsingUnion builder0 rs b1 /\
    NoDup memberSet /\
    (forall x, x ∈ memberSet <-> x ∈ Map_values byKind) /\
    lookupType collapsedRun.2 collapsedRun.1 =
      Some (anyEntry
              (combineTypeAttributes "union"
                 (makeAttributes (mkTransformation target transformer))
                 (lostMemberAttributes collapsingUnion emptyTypeAttributes))) /\
    ((memberSet = [target] /\
      lostTypeAttributes collapsedRun.2 = true /\
      forall i e, lookupType collapsedRun.2 i = Some e ->
                  lookupType b1 i = Some e \/ isUnionNode e = false)
     \/
     ((1 < length memberSet)%nat /\
      lookupType collapsedRun.2 target = Some (mkEntry (UnionNode memberSet) []) /\
      lostTypeAttributes collapsedRun.2 = lostTypeAttributes b1)).
Proof.
  apply (replaceUnion_collapses_iff_single_handle [] collapsingUnion 0 false builder0).
  - exact plain_engineContract.
  - reflexivity.
  - exact collapsedRun_Ok.
Defined.

Lemma replaceUnion_string_branch_witness :
  exists byKind additional b1 target anyType forNull forInteger forDouble forBool
         forString forArray forObject,
    let haveUnion := (1 <? length (Set_from (Map_values byKind)))%nat in
    mapMapEntries stringOrEnum stringOrEnum [] emptyTypeAttributes builder0
      = Ok ((byKind, additional), b1) /\
    lookupType stringOrEnumRun.2 stringOrEnumRun.1 =
      Some (anyEntry
              (combineTypeAttributes "union"
                 (makeAttributes
                    (mkTransformation target
                       (DecodingChoiceTransformer anyType forNull forInteger
                          forDouble forBool forString forArray forObject)))
                 additional)) /\
    ((stringTypeMembers stringOrEnum = [] /\ forString = None)
     \/
     (exists t ref,
        stringTypeMembers stringOrEnum = [t] /\
        Map_get byKind (kind t) = Some ref /\
        forString = Some (DecodingTransformer ref (consumer haveUnion ref)) /\
        forString = branchFor stringOrEnum byKind haveUnion (kind t))
     \/
     (exists stringType alternatives,
        (1 < length (stringTypeMembers stringOrEnum))%nat /\
        lookupType stringOrEnumRun.2 stringType = Some plainString /\
        Forall2 (Alternative byKind haveUnion stringType)
          (stringTypeMembers stringOrEnum) alternatives /\
        forString =
          Some (DecodingTransformer stringType
                  (Some (ChoiceTransformer stringType alternatives))))).
Proof.
  apply (replaceUnion_string_branch [] stringOrEnum 0 false builder0).
  - exact plain_engineContract.
  - reflexivity.
  - exact stringOrEnumRun_Ok.
Defined.

Lemma replaceUnion_redirects_transformed_strings_witness :
  exists byKind additional b1 rs target anyType forString,
    let memberSet := Set_from (Map_values byKind) in
    let haveUnion := (1 <? length memberSet)%nat in
    mapMapEntries nullableCount nullableCount [] emptyTypeAttributes builder0
      = Ok ((byKind, additional), b1) /\
    MembersHandled nullableCount nullableCount builder0 rs b1 /\
    length rs = length nullableCount /\
    byKind = recordMembers [] nullableCount rs /\
    additional = lostMemberAttributes nullableCount emptyTypeAttributes /\
    keepsTypes b1 nullableCountRun.2 /\
    lookupType nullableCountRun.2 nullableCountRun.1 =
      Some (anyEntry
              (combineTypeAttributes "union"
                 (makeAttributes
                    (mkTransformation target
                       (unionDecoder nullableCount byKind haveUnion anyType forString)))
                 additional)) /\
    (if haveUnion
     then lookupType nullableCountRun.2 target = Some (mkEntry (UnionNode memberSet) [])
     else memberSet = [target]) /\
    forall i t x,
      nullableCount !! i = Some t -> rs !! i = Some x ->
      (exists byKind_i additional_i bi bi',
         mapMapEntries nullableCount (take i nullableCount) [] emptyTypeAttributes builder0
           = Ok ((byKind_i, additional_i), bi) /\
         match redirected t with
         | Some k =>
             match findMember nullableCount k with
             | Some m => builder_reconstituteType m bi = Ok (x, bi')
             | None => builder_getPrimitiveType k None None bi = Ok (x, bi')
             end
         | None => builder_reconstituteType t bi = Ok (x, bi')
         end /\
         MemberHandle nullableCount t bi x bi' /\
         keepsTypes bi' nullableCountRun.2) /\
      (forall k, redirected t = Some k -> findMember nullableCount k = None ->
         lookupType nullableCountRun.2 x
           = Some (mkEntry (PrimitiveNode k) emptyTypeAttributes)) /\
      ((forall j t', i < j -> nullableCount !! j = Some t' -> kind t' <> kind t) ->
       Map_get byKind (kind t) = Some x /\ x ∈ memberSet).
Proof.
  apply (replaceUnion_redirects_transformed_strings [] nullableCount 0 false builder0).
  - exact plain_engineContract.
  - reflexivity.
  - exact nullableCountRun_Ok.
Defined.

(** In the example the attributes of the integer-as-string member end
    up on the replacement. *)
Example nullableCount_attributes :
  lostMemberAttributes nullableCount emptyTypeAttributes
    = [("description", OtherAttribute "a count")] /\
  option_map entryAttributes (lookupType nullableCountRun.2 0) =
    Some [("transformation",
           TransformationAttribute
             (mkTransformation 3
                (DecodingChoiceTransformer 4
                   (Some (DecodingTransformer 1 (Some (UnionInstantiationTransformer 1))))
                   None None None
                   (Some (DecodingTransformer 2 (Some (UnionInstantiationTransformer 2))))
                   None None)));
          ("description", OtherAttribute "a count")].
Proof. split; vm_compute; reflexivity. Qed.

Lemma fatal_invariant_violations_witness :
  replaceUnion [] [] 0 false builder0 = Panic "We can't have empty unions" /\
  (exists message, replaceUnion [] classOrMap 0 false builder0 = Panic message) /\
  replace (mkRunContext false false) [PrimitiveType "integer" []] 0 builder0
    = Panic "Cannot make transformation for type integer".
Proof.
  destruct (fatal_invariant_violations (H:=plain)) as (Hempty & Hboth & Hother).
  split; [apply Hempty|]. split.
  - apply (Hboth [] classOrMap 0 false builder0 (ObjectType KClass []) (ObjectType KMap []));
      reflexivity.
  - apply (Hother (mkRunContext false false) (PrimitiveType "integer" []) 0 builder0);
      (discriminate || reflexivity).
Defined.

(** C8 fails at the plain string type: it is not a union, an array or
    an enumeration, and its kind is no textual encoding of another
    primitive, yet the dispatcher hands it to [replaceIntegerString]
    and returns the replacement. *)
Lemma plain_string_is_dispatched :
  exists b',
    replace (H:=plain) (mkRunContext false false) [PrimitiveType "string" []] 0 builder0
      = Ok (0, b') /\
    plain_isPrimitiveStringTypeKind "string" = true /\
    plain_targetTypeKind "string" = None /\
    attachedTransformation b' 0 =
      Some (mkTransformation 2
              (DecodingTransformer 1 (Some (ParseStringTransformer 1 None)))).
Proof.
  eexists. split; [vm_compute; reflexivity|]. repeat split; reflexivity.
Qed.

(** C9 fails at string | enum {A, B}: the alternative of the plain
    string comes first, before the case matcher of the enumeration. *)
Lemma plain_string_alternative_comes_first :
  replaceUnion [] stringOrEnum 0 false builder0
    = Ok (stringOrEnumRun.1, stringOrEnumRun.2) /\
  attachedTransformation stringOrEnumRun.2 stringOrEnumRun.1 =
    Some (mkTransformation 3
            (DecodingChoiceTransformer 4 None None None None
               (Some (DecodingTransformer 1
                        (Some (ChoiceTransformer 1
                                 [UnionInstantiationTransformer 1;
                                  makeEnumTransformer ["A"; "B"] 1
                                    (Some (UnionInstantiationTransformer 2))]))))
               None None)) /\
  ~ plainStringLast
      [UnionInstantiationTransformer 1;
       makeEnumTransformer ["A"; "B"] 1 (Some (UnionInstantiationTransformer 2))].
Proof.
  split; [exact stringOrEnumRun_Ok|]. split; [vm_compute; reflexivity|].
  intros Hlast.
  specialize (Hlast 0 1 _ _ eq_refl eq_refl eq_refl eq_refl). lia.
Qed.

Lemma replaceUnion_alternatives_in_member_order_witness :
  exists target anyType forNull forInteger forDouble forBool stringType alternatives
         forArray forObject,
    lookupType stringOrEnumRun.2 stringOrEnumRun.1 =
      Some (anyEntry
              (combineTypeAttributes "union"
                 (makeAttributes
                    (mkTransformation target
                       (DecodingChoiceTransformer anyType forNull forInteger
                          forDouble forBool
                          (Some (DecodingTransformer stringType
                                   (Some (ChoiceTransformer stringType alternatives))))
                          forArray forObject)))
                 (lostMemberAttributes stringOrEnum emptyTypeAttributes))) /\
    map isPlainStringAlternative alternatives =
      map (fun t => String.eqb (kind t) "string") (stringTypeMembers stringOrEnum).
Proof.
  apply (replaceUnion_alternatives_in_member_order [] stringOrEnum 0 false builder0).
  - exact plain_engineContract.
  - reflexivity.
  - vm_compute. lia.
  - exact stringOrEnumRun_Ok.
Defined.

(** C10 fails at date | time in an environment that carries both over
    as the plain string: the union collapses to the string type, and
    the string branch is a [Decode] that continues into a [Choice]. *)
Lemma collapsed_union_string_branch_not_bare :
  exists b',
    replaceUnion (H:=mapped) [] dateOrTime 0 false builder0 = Ok (0, b') /\
    lostTypeAttributes b' = true /\
    lookupType b' 1 = Some plainString /\
    attachedTransformation b' 0 =
      Some (mkTransformation 1
              (DecodingChoiceTransformer 2 None None None None
                 (Some (DecodingTransformer 1
                          (Some (ChoiceTransformer 1
                                   [ParseStringTransformer 1 None;
                                    ParseStringTransformer 1 None]))))
                 None None)) /\
    ~ bareDecode
        (Some (DecodingTransformer 1
                 (Some (ChoiceTransformer 1
                          [ParseStringTransformer 1 None;
                           ParseStringTransformer 1 None])))).
Proof.
  eexists. split; [vm_compute; reflexivity|].
  split; [reflexivity|]. split; [reflexivity|]. split; [reflexivity|].
  intros [Hnone | [ref Hbare]]; discriminate.
Qed.

Lemma replaceUnion_tags_iff_union_witness :
  exists byKind additional b1 target anyType forString,
    let memberSet := Set_from (Map_values byKind) in
    let haveUnion := (1 <? length memberSet)%nat in
    let transformer := unionDecoder nullableCount byKind haveUnion anyType forString in
    mapMapEntries nullableCount nullableCount [] emptyTypeAttributes builder0
      = Ok ((byKind, additional), b1) /\
    lookupType nullableCountRun.2 nullableCountRun.1 =
      Some (anyEntry
              (combineTypeAttributes "union"
                 (makeAttributes (mkTransformation target transformer))
                 additional)) /\
    (hasUnionInstantiation transformer = true -> (1 < length memberSet)%nat) /\
    ((1 < length memberSet)%nat ->
       lookupType nullableCountRun.2 target = Some (mkEntry (UnionNode memberSet) []) /\
       (forall k, taggingDecode (branchFor nullableCount byKind haveUnion k)) /\
       (forall k m, k ∈ dispatchedKinds -> findMember nullableCount k = Some m ->
                    hasUnionInstantiation transformer = true) /\
       (forall t, t ∈ stringTypeMembers nullableCount ->
                  (forall a, t <> EnumType a []) ->
                  hasUnionInstantiation transformer = true)) /\
    (length memberSet = 1 ->
       memberSet = [target] /\
       lostTypeAttributes nullableCountRun.2 = true /\
       hasUnionInstantiation transformer = false /\
       (forall k, bareDecode (branchFor nullableCount byKind haveUnion k)) /\
       (length (stringTypeMembers nullableCount) <= 1 -> bareDecode forString)).
Proof.
  apply (replaceUnion_tags_iff_union [] nullableCount 0 false builder0).
  - exact plain_engineContract.
  - reflexivity.
  - exact nullableCountRun_Ok.
Defined.


(** A union whose members are of no kind the decoder dispatches on:
    two handles remain and a union is built, but the decoder has no
    branch, so no [UnionInstantiate] occurs. *)
Example union_without_dispatched_member :
  option_map transformer
    (attachedTransformation
       (outcome (replaceUnion [] [ObjectType KObject []; IntersectionType [] []]
                   0 false builder0)).2 0)
    = Some (DecodingChoiceTransformer 4 None None None None None None None) /\
  lookupType
    (outcome (replaceUnion [] [ObjectType KObject []; IntersectionType [] []]
                0 false builder0)).2 3
    = Some (mkEntry (UnionNode [1; 2]) []).
Proof. split; vm_compute; reflexivity. Qed.

(** ** The further properties at concrete inputs *)


Lemma nullableClassRun_Ok :
  replaceUnion (H:=plain) [] nullableClass 0 false builder0
    = Ok (nullableClassRun.1, nullableClassRun.2).
Proof. vm_compute. reflexivity. Qed.


Lemma twoIntegersRun_Ok :
  replaceUnion (H:=plain) [] twoIntegers 0 false builder0
    = Ok (twoIntegersRun.1, twoIntegersRun.2).
Proof. vm_compute. reflexivity. Qed.

Lemma redBlueRun_Ok :
  replace (H:=plain) (mkRunContext false false) [EnumType [] ["Red"; "Blue"]] 1 builder1
    = Ok (redBlueRun.1, redBlueRun.2).
Proof. vm_compute. reflexivity. Qed.

Lemma makeEnumTransformer_order_independent_witness :
  makeEnumTransformer ["Red"; "Blue"] 1 None
    = makeEnumTransformer ["Blue"; "Red"] 1 None.
Proof.
  apply (makeEnumTransformer_order_independent ["Red"; "Blue"] ["Blue"; "Red"] 1 None).
  apply Permutation_swap.
Defined.

Lemma replace_returns_forwardingRef_witness : redBlueRun.1 = 1.
Proof.
  apply (replace_returns_forwardingRef (H:=plain) (mkRunContext false false)
           [EnumType [] ["Red"; "Blue"]] 1 builder1 redBlueRun.1 redBlueRun.2).
  exact redBlueRun_Ok.
Defined.

Lemma replace_keeps_types_witness :
  keepsTypes builder1 redBlueRun.2 /\
  is_Some (lookupType redBlueRun.2 1) /\
  length (types builder1) <= length (types redBlueRun.2) /\
  forall f, f <> 1 -> types builder1 !! f = Some None ->
            types redBlueRun.2 !! f = Some None.
Proof.
  apply (replace_keeps_types (H:=plain) (mkRunContext false false)
           [EnumType [] ["Red"; "Blue"]] 1 builder1 redBlueRun.1 redBlueRun.2).
  - exact plain_engineContract.
  - reflexivity.
  - exact redBlueRun_Ok.
Defined.

Lemma replaceUnion_total_witness :
  exists b', replaceUnion [] nullableCount 0 false builder0 = Ok (0, b').
Proof.
  apply (replaceUnion_total (H:=plain) [] nullableCount 0 false builder0).
  - exact plain_engineContract.
  - discriminate.
  - left. reflexivity.
  - left. vm_compute. lia.
Defined.

Lemma replaceUnion_collapsed_plain_string_aborts_witness :
  replaceUnion (H:=mapped) [] stringOrTime 0 false builder0
    = Panic "Defined value expected, but got undefined".
Proof.
  apply (replaceUnion_collapsed_plain_string_aborts (H:=mapped) [] stringOrTime 0 false
           builder0 [("string", 1); ("time", 1)] []
           (mkBuilder [None; Some plainString] false)).
  - vm_compute. reflexivity.
  - vm_compute. lia.
  - vm_compute. lia.
  - exists (PrimitiveType "string" []). split; [vm_compute; left | reflexivity].
Defined.

Lemma replaceUnion_collapse_ignores_attributes_witness :
  replaceUnion [("description", OtherAttribute "either")] collapsingUnion 0 false builder0
    = replaceUnion [] collapsingUnion 0 false builder0.
Proof.
  apply (replaceUnion_collapse_ignores_attributes (H:=plain)
           [("description", OtherAttribute "either")] [] collapsingUnion 0 false builder0
           [("integer", 1); ("integer-string", 1)]
           [("description", OtherAttribute "a count")]
           (mkBuilder [None; Some (mkEntry (PrimitiveNode "integer") [])] false)).
  - vm_compute. reflexivity.
  - vm_compute. lia.
Defined.

Lemma mapMapEntries_one_entry_per_kind_witness :
  NoDup (map fst [("null", 1); ("integer-string", 2)]) /\
  (forall k, k ∈ map fst [("null", 1); ("integer-string", 2)] <->
             exists t, t ∈ nullableCount /\ kind t = k) /\
  length [("null", 1); ("integer-string", 2)] <= length nullableCount.
Proof.
  apply (mapMapEntries_one_entry_per_kind (H:=plain) nullableCount nullableCount [] builder0
           [("null", 1); ("integer-string", 2)]
           [("description", OtherAttribute "a count")]
           (mkBuilder [None; Some (mkEntry (PrimitiveNode "null") []);
                       Some (mkEntry (PrimitiveNode "integer") [])] false)).
  vm_compute. reflexivity.
Defined.

Lemma replaceUnion_member_set_bounded_witness :
  exists rs b1 target transformer,
    let byKind := recordMembers [] nullableCount rs in
    let memberSet := Set_from (Map_values byKind) in
    MembersHandled nullableCount nullableCount builder0 rs b1 /\
    lookupType nullableCountRun.2 nullableCountRun.1 =
      Some (anyEntry
              (combineTypeAttributes "union"
                 (makeAttributes (mkTransformation target transformer))
                 (lostMemberAttributes nullableCount emptyTypeAttributes))) /\
    1 <= length memberSet <= length nullableCount /\
    (forall x, x ∈ memberSet ->
               exists t, t ∈ nullableCount /\ Map_get byKind (kind t) = Some x) /\
    (1 < length memberSet ->
     lookupType nullableCountRun.2 target = Some (mkEntry (UnionNode memberSet) [])).
Proof.
  apply (replaceUnion_member_set_bounded [] nullableCount 0 false builder0).
  - exact plain_engineContract.
  - reflexivity.
  - exact nullableCountRun_Ok.
Defined.

Lemma replaceUnion_same_kind_collapses_witness :
  exists rs b1 x transformer,
    MembersHandled twoIntegers twoIntegers builder0 rs b1 /\
    last rs = Some x /\
    lostTypeAttributes twoIntegersRun.2 = true /\
    lookupType twoIntegersRun.2 twoIntegersRun.1 =
      Some (anyEntry
              (combineTypeAttributes "union"
                 (makeAttributes (mkTransformation x transformer))
                 (lostMemberAttributes twoIntegers emptyTypeAttributes))).
Proof.
  apply (replaceUnion_same_kind_collapses [] twoIntegers "integer" 0 false builder0).
  - exact plain_engineContract.
  - reflexivity.
  - intros t Ht. apply elem_of_cons in Ht. destruct Ht as [-> | Ht]; [reflexivity|].
    apply list_elem_of_singleton in Ht. rewrite Ht. reflexivity.
  - exact twoIntegersRun_Ok.
Defined.

(** In the example the handle of the second integer, the one with the
    description, is the target. *)
Example twoIntegers_target :
  option_map targetTypeRef (attachedTransformation twoIntegersRun.2 0) = Some 2 /\
  lookupType twoIntegersRun.2 2 =
    Some (mkEntry (PrimitiveNode "integer") [("description", OtherAttribute "a count")]).
Proof. split; vm_compute; reflexivity. Qed.

Lemma replaceUnion_object_branch_witness :
  exists byKind additional b1 target anyType forNull forInteger forDouble forBool
         forString forArray forObject,
    let haveUnion := (1 <? length (Set_from (Map_values byKind)))%nat in
    mapMapEntries nullableClass nullableClass [] emptyTypeAttributes builder0
      = Ok ((byKind, additional), b1) /\
    lookupType nullableClassRun.2 nullableClassRun.1 =
      Some (anyEntry
              (combineTypeAttributes "union"
                 (makeAttributes
                    (mkTransformation target
                       (DecodingChoiceTransformer anyType forNull forInteger
                          forDouble forBool forString forArray forObject)))
                 additional)) /\
    (forall k m, k = "class" \/ k = "map" -> findMember nullableClass k = Some m ->
       exists ref,
         Map_get byKind k = Some ref /\
         forObject = Some (DecodingTransformer ref (consumer haveUnion ref))) /\
    (findMember nullableClass "class" = None -> findMember nullableClass "map" = None ->
     forObject = None).
Proof.
  apply (replaceUnion_object_branch [] nullableClass 0 false builder0).
  - exact plain_engineContract.
  - reflexivity.
  - exact nullableClassRun_Ok.
Defined.



Lemma replaceUnion_no_redirection_no_additional_attributes_witness :
  exists target transformer,
    lookupType stringOrEnumRun.2 stringOrEnumRun.1 =
      Some (anyEntry
              (combineTypeAttributes "union"
                 (makeAttributes (mkTransformation target transformer))
                 emptyTypeAttributes)).
Proof.
  apply (replaceUnion_no_redirection_no_additional_attributes [] stringOrEnum 0 false
           builder0).
  - exact plain_engineContract.
  - reflexivity.
  - intros t Ht. apply elem_of_cons in Ht. destruct Ht as [-> | Ht]; [reflexivity|].
    apply list_elem_of_singleton in Ht. rewrite Ht. reflexivity.
  - exact stringOrEnumRun_Ok.
Defined.

Lemma replace_string_kind_targets_integer_witness :
  exists stringType attributes' target b',
    replace (mkRunContext false false) [PrimitiveType "date" []] 0 builder0
      = Ok (0, b') /\
    lookupType b' 0 =
      Some (mkEntry (StringNode unrestricted)
              (makeAttributes
                 (mkTransformation target
                    (DecodingTransformer stringType
                       (Some (ParseStringTransformer stringType None)))))) /\
    lookupType b' target = Some (mkEntry (PrimitiveNode "integer") attributes').
Proof.
  apply (replace_string_kind_targets_integer (mkRunContext false false)
           (PrimitiveType "date" []) 0 builder0).
  - exact plain_engineContract.
  - discriminate.
  - discriminate.
  - discriminate.
  - reflexivity.
  - reflexivity.
Defined.

Lemma replace_answers_every_group_witness :
  exists t b',
    [UnionType [] nullableCount] = [t] /\
    t ∈ someTypes /\
    needsTransformer t = true /\
    replace (mkRunContext false false) [UnionType [] nullableCount] 0 builder0
      = Ok (0, b').
Proof.
  apply (replace_answers_every_group (mkRunContext false false) needsTransformer
           someTypes).
  - exact plain_engineContract.
  - intros t Ht Hneeds.
    apply elem_of_cons in Ht. destruct Ht as [-> | Ht]; [exact I|].
    apply elem_of_cons in Ht. destruct Ht as [-> | Ht]; [discriminate|].
    apply list_elem_of_singleton in Ht. rewrite Ht.
    split; [discriminate|]. split; [left; reflexivity|]. left. vm_compute. lia.
  - vm_compute. right. left.
Defined.
